(** * ColorExtractor: the palette engine of [src/palette.py]

    A shallow embedding of the colour codec ([rgb_to_hex], [hex_to_rgb],
    [relative_luminance]) and of the [Palette] container with its two
    builders, its statistics estimator and its list operations, followed
    by the properties of the specification that concern them.

    Conventions.
    - A Python [str] is a [string]; its characters are read as the code
      points below 256.
    - A Python [int] is a [Z]; a length or a pixel count is a [nat].
    - A raised exception is the [Raise] case of [result]; a method of the
      container returns its outcome together with the container after the
      call.
    - Pillow's resampling and colour quantisation, [colorsys] and binary
      floating point are interfaces ([Imaging], [Floats]); the code is
      embedded over them.  The division of two [int]s raises for a zero
      divisor and for a quotient that is too large for a float; the
      floats that are computed from there on are taken to be finite. *)

From Stdlib Require Import ZArith NArith List Bool Ascii String Lia.
From Stdlib Require Import Permutation Sorted QArith.
Import ListNotations.

Local Open Scope Z_scope.

(* ================================================================== *)
(** * Exceptions *)
(* ================================================================== *)

Inductive exn : Type :=
| ValueError
| IndexError
| ZeroDivisionError
| OverflowError.

Inductive result (A : Type) : Type :=
| Ok (a : A)
| Raise (e : exn).

Arguments Ok {A} a.
Arguments Raise {A} e.

Definition bind {A B : Type} (r : result A) (k : A -> result B) : result B :=
  match r with
  | Ok a => k a
  | Raise e => Raise e
  end.

Notation "x <- r ;; k" := (bind r (fun x => k))
  (at level 61, r at next level, right associativity).

(* ================================================================== *)
(** * Strings as Python sees them *)
(* ================================================================== *)

Definition code (c : ascii) : N := N_of_ascii c.

(** [str.isspace] on the code points below 256: what [str.strip()] removes. *)
Definition is_space (c : ascii) : bool :=
  let n := code c in
  ((9 <=? n) && (n <=? 13) || (28 <=? n) && (n <=? 32)
   || (n =? 133) || (n =? 160))%N.

(** The blanks [int(s, 16)] skips around a literal: the ASCII blanks of C,
    and the non-ASCII spaces, which CPython first rewrites to [' ']. *)
Definition is_int_space (c : ascii) : bool :=
  let n := code c in
  ((9 <=? n) && (n <=? 13) || (n =? 32) || (n =? 133) || (n =? 160))%N.

Fixpoint lstrip_by (p : ascii -> bool) (s : string) : string :=
  match s with
  | EmptyString => EmptyString
  | String c s' => if p c then lstrip_by p s' else s
  end.

Fixpoint rstrip_by (p : ascii -> bool) (s : string) : string :=
  match s with
  | EmptyString => EmptyString
  | String c s' =>
      match rstrip_by p s' with
      | EmptyString => if p c then EmptyString else String c EmptyString
      | r => String c r
      end
  end.

(** [s.strip()] *)
Definition strip (s : string) : string := rstrip_by is_space (lstrip_by is_space s).

(** [s.lstrip('#')] *)
Definition lstrip_hash (s : string) : string := lstrip_by (Ascii.eqb "#") s.

(** [s[i:i+2]] for [0 <= i]; a slice past the end is shorter or empty. *)
Definition slice2 (i : nat) (s : string) : string := substring i 2 s.

(* ------------------------------------------------------------------ *)
(** ** [format(v, '02X')] *)

Fixpoint upper_hex (d : Hexadecimal.uint) : string :=
  match d with
  | Hexadecimal.Nil => EmptyString
  | Hexadecimal.D0 d => String "0" (upper_hex d)
  | Hexadecimal.D1 d => String "1" (upper_hex d)
  | Hexadecimal.D2 d => String "2" (upper_hex d)
  | Hexadecimal.D3 d => String "3" (upper_hex d)
  | Hexadecimal.D4 d => String "4" (upper_hex d)
  | Hexadecimal.D5 d => String "5" (upper_hex d)
  | Hexadecimal.D6 d => String "6" (upper_hex d)
  | Hexadecimal.D7 d => String "7" (upper_hex d)
  | Hexadecimal.D8 d => String "8" (upper_hex d)
  | Hexadecimal.D9 d => String "9" (upper_hex d)
  | Hexadecimal.Da d => String "A" (upper_hex d)
  | Hexadecimal.Db d => String "B" (upper_hex d)
  | Hexadecimal.Dc d => String "C" (upper_hex d)
  | Hexadecimal.Dd d => String "D" (upper_hex d)
  | Hexadecimal.De d => String "E" (upper_hex d)
  | Hexadecimal.Df d => String "F" (upper_hex d)
  end.

(** The sign counts in the width, so a negative number is never padded. *)
Definition format_02X (v : Z) : string :=
  match v with
  | Zneg p => String "-" (upper_hex (Pos.to_hex_uint p))
  | _ =>
      let s := upper_hex (N.to_hex_uint (Z.to_N v)) in
      if (String.length s <? 2)%nat then String "0" s else s
  end.

(* ------------------------------------------------------------------ *)
(** ** [int(s, 16)] *)

Definition hex_value (c : ascii) : option Z :=
  let n := code c in
  if ((48 <=? n) && (n <=? 57))%N then Some (Z.of_N n - 48)
  else if ((65 <=? n) && (n <=? 70))%N then Some (Z.of_N n - 55)
  else if ((97 <=? n) && (n <=? 102))%N then Some (Z.of_N n - 87)
  else None.

(** Digits with single underscores between them; [after_digit] tells
    whether the previous character was a digit.  A literal starts and
    ends with a digit; blanks may follow it. *)
Fixpoint int_digits (s : string) (acc : Z) (after_digit : bool) : option Z :=
  match s with
  | EmptyString => if after_digit then Some acc else None
  | String c s' =>
      match hex_value c with
      | Some d => int_digits s' (16 * acc + d) true
      | None =>
          if Ascii.eqb c "_" then
            if after_digit then int_digits s' acc false else None
          else if after_digit && (lstrip_by is_int_space s =? "")%string
               then Some acc
               else None
      end
  end.

(** An optional [0x] or [0X], after which one underscore is allowed. *)
Definition skip_0x (s : string) : string :=
  match s with
  | String "0" (String x s') =>
      if Ascii.eqb x "x" || Ascii.eqb x "X" then
        match s' with
        | String "_" s'' => s''
        | _ => s'
        end
      else s
  | _ => s
  end.

Definition int_unsigned (s : string) : option Z :=
  int_digits (skip_0x s) 0 false.

Definition int_16 (s : string) : result Z :=
  let s1 := lstrip_by is_int_space s in
  let r :=
    match s1 with
    | String "+" s2 => int_unsigned s2
    | String "-" s2 => option_map Z.opp (int_unsigned s2)
    | _ => int_unsigned s1
    end in
  match r with
  | Some v => Ok v
  | None => Raise ValueError
  end.

(* ================================================================== *)
(** * The colour codec *)
(* ================================================================== *)

Definition triple : Type := (Z * Z * Z)%type.

(** [rgb_to_hex(rgb)]: the three channels through ['#{:02X}{:02X}{:02X}'] *)
Definition rgb_to_hex (c : triple) : string :=
  let '(r, g, b) := c in
  String "#" (format_02X r ++ format_02X g ++ format_02X b)%string.

(** [hex_to_rgb(hexstr)] *)
Definition hex_to_rgb (hexstr : string) : result triple :=
  let hexstr := lstrip_hash (strip hexstr) in
  r <- int_16 (slice2 0 hexstr) ;;
  g <- int_16 (slice2 2 hexstr) ;;
  b <- int_16 (slice2 4 hexstr) ;;
  Ok (r, g, b).

(* ================================================================== *)
(** * Arrays of pixels *)
(* ================================================================== *)

Definition rgba : Type := (Z * Z * Z * Z)%type.

(** An image after [convert('RGBA')]: its size [(w, h)] and its pixels,
    row by row. *)
Record image : Type := Image { size : Z * Z; data : list rgba }.

Definition alpha_of (p : rgba) : Z := let '(_, _, _, a) := p in a.
Definition rgb_of (p : rgba) : triple := let '(r, g, b, _) := p in (r, g, b).

(** [alpha > 0] *)
Definition opaque (p : rgba) : bool := 0 <? alpha_of p.

(** [arr[:, :, :3][arr[:, :, 3] > 0]]: the colours of the opaque pixels. *)
Definition opaque_rgb (im : image) : list triple :=
  map rgb_of (filter opaque (data im)).

(** The order of the rows of [np.unique(.., axis=0)]. *)
Definition triple_compare (c d : triple) : comparison :=
  let '(r1, g1, b1) := c in
  let '(r2, g2, b2) := d in
  match r1 ?= r2 with
  | Eq => match g1 ?= g2 with
          | Eq => b1 ?= b2
          | o => o
          end
  | o => o
  end.

Fixpoint tally (c : triple) (t : list (triple * nat)) : list (triple * nat) :=
  match t with
  | [] => [(c, 1%nat)]
  | (d, k) :: t' =>
      match triple_compare c d with
      | Lt => (c, 1%nat) :: t
      | Eq => (d, S k) :: t'
      | Gt => (d, k) :: tally c t'
      end
  end.

(** [np.unique(pixels, axis=0, return_counts=True)]: the distinct rows in
    increasing order, each with its number of occurrences. *)
Definition np_unique_counts (pixels : list triple) : list (triple * nat) :=
  fold_right tally [] pixels.

(** [np.unique(pixels, axis=0)] *)
Definition np_unique (pixels : list triple) : list triple :=
  map fst (np_unique_counts pixels).

(* ================================================================== *)
(** * [list.sort] *)
(* ================================================================== *)

Section PySort.
Context {A : Type}.
(** [lt x y]: the key of [x] is below the key of [y]. *)
Variable lt : A -> A -> bool.

Fixpoint insert_stable (x : A) (l : list A) : list A :=
  match l with
  | [] => [x]
  | y :: l' => if lt y x then y :: insert_stable x l' else x :: l
  end.

(** [l.sort(key=..)]: stable, so an element stays ahead of the later
    elements that have an equal key. *)
Definition py_sort (l : list A) : list A := fold_right insert_stable [] l.

(** [x] is not above [y]; [x] and [y] have equal keys. *)
Definition not_above (x y : A) : Prop := lt y x = false.
Definition equal_keys (x y : A) : bool := negb (lt x y) && negb (lt y x).
End PySort.

(** [l.sort(key=.., reverse=True)]: decreasing keys, and still the earlier
    of two elements with equal keys first. *)
Definition py_sort_reverse {A : Type} (lt : A -> A -> bool) (l : list A) : list A :=
  py_sort (fun x y => lt y x) l.

(* ================================================================== *)
(** * What the code takes from its libraries *)
(* ================================================================== *)

(** Binary floating point, as far as the code uses it. *)
Class Floats : Type := {
  flt : Type;
  (** [a / b] on two [int]s *)
  true_div : Z -> Z -> flt;
  (** [a * x] with [a] an [int] *)
  int_times : Z -> flt -> flt;
  (** [int(x)] *)
  trunc : flt -> Z;
  (** a decimal literal such as [0.2126] *)
  literal : Q -> flt;
  fmul : flt -> flt -> flt;
  fadd : flt -> flt -> flt;
  (** [x < y] and [x <= y] *)
  fltb : flt -> flt -> bool;
  fleb : flt -> flt -> bool;
  (** [colorsys.rgb_to_hsv(r, g, b)] *)
  rgb_to_hsv : flt -> flt -> flt -> flt * flt * flt
}.

(** The least magnitude that rounds to no float: halfway between the
    largest float, [2^1024 - 2^971], and [2^1024]. *)
Definition float_overflow : Z := 2 ^ 1024 - 2 ^ 970.

(** [a / b] on two [int]s is rounded once, from the exact quotient, and
    raises [OverflowError: integer division result too large for a
    float] when the quotient rounds to no float. *)
Definition div_overflows (a b : Z) : bool :=
  float_overflow * Z.abs b <=? Z.abs a.

(** Pillow.  [lanczos size im] is [im.resize(size, Image.LANCZOS)].
    [median_cut pixels colors] is the adaptive quantisation of a one-row
    RGB image to [colors] palette slots: the flat palette that
    [getpalette()] returns, and the slot of every pixel. *)
Class Imaging : Type := {
  lanczos : Z * Z -> image -> image;
  median_cut : list triple -> Z -> list Z * list nat
}.

(** An image in mode [P]: its flat palette and its pixels. *)
Definition p_image : Type := (list Z * list nat)%type.

(** [tmp.convert('P', palette=Image.ADAPTIVE, colors=n)].  The number
    is handed over as a C [int], which raises [OverflowError] outside 32
    bits; the quantiser then takes between 1 and 256 colours, the slots
    of an 8-bit palette, and refuses any other number with
    [ValueError: bad number of colors]. *)
Definition convert_P_adaptive `{I : Imaging} (pixels : list triple) (colors : Z)
  : result p_image :=
  if (colors <? - 2 ^ 31) || (2 ^ 31 - 1 <? colors) then Raise OverflowError
  else if (colors <? 1) || (256 <? colors) then Raise ValueError
  else Ok (median_cut pixels colors).

(** [q.getpalette() or []] *)
Definition getpalette (q : p_image) : list Z := fst q.

(** [q.getcolors(maxcolors=65536) or []]: for mode [P] the histogram
    [[(h[i], i) for i in range(256) if h[i]]], which has at most 256
    entries. *)
Definition getcolors (q : p_image) : list (Z * Z) :=
  flat_map
    (fun i => let h := count_occ Nat.eq_dec (snd q) i in
              if (h =? 0)%nat then [] else [(Z.of_nat h, Z.of_nat i)])
    (seq 0 256).

(** [palette[i]] for [0 <= i]. *)
Definition item (palette : list Z) (i : Z) : result Z :=
  match nth_error palette (Z.to_nat i) with
  | Some v => Ok v
  | None => Raise IndexError
  end.

(* ================================================================== *)
(** * The container *)
(* ================================================================== *)

(** One palette slot: the dict with keys [rgb], [hex], [count], [enabled]. *)
Record entry : Type := Entry {
  rgb : triple;
  hex : string;
  count : Z;
  enabled : bool
}.

Definition set_enabled (b : bool) (e : entry) : entry :=
  {| rgb := rgb e; hex := hex e; count := count e; enabled := b |}.

(** [relative_luminance(rgb)] *)
Definition relative_luminance `{F : Floats} (c : triple) : flt :=
  let '(r, g, b) := c in
  let r := true_div r 255 in
  let g := true_div g 255 in
  let b := true_div b 255 in
  fadd (fadd (fmul (literal (2126 # 10000)) r) (fmul (literal (7152 # 10000)) g))
       (fmul (literal (722 # 10000)) b).

(** An optional argument, or what stands for it when it is [None]. *)
Definition or_else {T : Type} (o : option T) (d : T) : T :=
  match o with Some v => v | None => d end.

(** The object: [colors] and the thresholds, which are attributes of the
    class that an instance may overwrite.  The ratio threshold is a float;
    it is kept as the rational that it denotes. *)
Record Palette : Type := {
  colors : list entry;
  MAX_QUANT_DIM : Z;
  MAX_SAMPLE_DIM : Z;
  FULL_SCAN_PIXEL_LIMIT : Z;
  UNIQUE_THRESHOLD : Z;
  UNIQUE_RATIO_THRESHOLD : Q
}.

(** [self.colors = l] *)
Definition set_colors (self : Palette) (l : list entry) : Palette :=
  {| colors := l;
     MAX_QUANT_DIM := MAX_QUANT_DIM self;
     MAX_SAMPLE_DIM := MAX_SAMPLE_DIM self;
     FULL_SCAN_PIXEL_LIMIT := FULL_SCAN_PIXEL_LIMIT self;
     UNIQUE_THRESHOLD := UNIQUE_THRESHOLD self;
     UNIQUE_RATIO_THRESHOLD := UNIQUE_RATIO_THRESHOLD self |}.

(** [Palette()] *)
Definition new_palette : Palette :=
  {| colors := [];
     MAX_QUANT_DIM := 800;
     MAX_SAMPLE_DIM := 1200;
     FULL_SCAN_PIXEL_LIMIT := 6000000;
     UNIQUE_THRESHOLD := 2048;
     UNIQUE_RATIO_THRESHOLD := 5 # 100 |}.

(** The keyword arguments of [from_image_max]. *)
Record max_options : Type := {
  force_full_scan : bool;
  max_sample_dim : option Z;
  full_scan_pixel_limit : option Z;
  unique_threshold : option Z;
  unique_ratio_threshold : option Q;
  max_unique_error : option Z
}.

Definition default_options : max_options :=
  {| force_full_scan := false;
     max_sample_dim := None;
     full_scan_pixel_limit := None;
     unique_threshold := None;
     unique_ratio_threshold := None;
     max_unique_error := None |}.

Section Container.
Context `{F : Floats} `{I : Imaging}.

(** [scale = max_dim / max(w, h)] and
    [(max(1, int(w * scale)), max(1, int(h * scale)))]; the division
    raises when both edges are 0, and when its result is too large for
    a float.  A product that is infinite, which [int] refuses, takes a
    [max_dim] below [- 2^1023]; it is not told apart here. *)
Definition fit (w h max_dim : Z) : result (Z * Z) :=
  if Z.max w h =? 0 then Raise ZeroDivisionError
  else if div_overflows max_dim (Z.max w h) then Raise OverflowError
  else
    let scale := true_div max_dim (Z.max w h) in
    Ok (Z.max 1 (trunc (int_times w scale)), Z.max 1 (trunc (int_times h scale))).

(** The image itself, or its reduction when its longer edge exceeds
    [max_dim]. *)
Definition shrink (im : image) (max_dim : Z) : result image :=
  let '(w, h) := size im in
  if Z.max w h >? max_dim then
    new_size <- fit w h max_dim ;;
    Ok (lanczos new_size im)
  else Ok im.

Definition new_entry (c : triple) (k : Z) : entry :=
  {| rgb := c; hex := rgb_to_hex c; count := k; enabled := true |}.

(** [key=lambda x: x['count']] *)
Definition count_lt (x y : entry) : bool := count x <? count y.

(* ---------------------------------------------------------------- *)
(** ** [from_image_quant] *)

(** The loop over [counts]: one entry per [(count, idx)], its colour
    read from the flat palette. *)
Fixpoint quant_mapping (palette : list Z) (counts : list (Z * Z))
  : result (list entry) :=
  match counts with
  | [] => Ok []
  | (cnt, idx) :: rest =>
      r <- item palette (idx * 3) ;;
      g <- item palette (idx * 3 + 1) ;;
      b <- item palette (idx * 3 + 2) ;;
      mapping <- quant_mapping palette rest ;;
      Ok (new_entry (r, g, b) cnt :: mapping)
  end.

(** The default of [max_dim] is the 800 that [MAX_QUANT_DIM] has when the
    method is defined, not the attribute of the instance. *)
Definition from_image_quant (self : Palette) (img : image) (n : Z)
  (max_dim : option Z) : result unit * Palette :=
  let max_dim := or_else max_dim 800 in
  if n <=? 0 then (Ok tt, set_colors self [])
  else
    match shrink img max_dim with
    | Raise e => (Raise e, self)
    | Ok sample =>
        let rgb_pixels := opaque_rgb sample in
        match rgb_pixels with
        | [] => (Ok tt, set_colors self [])
        | _ =>
            match convert_P_adaptive rgb_pixels n with
            | Raise e => (Raise e, self)
            | Ok q =>
                let palette := getpalette q in
                let counts := getcolors q in
                match quant_mapping palette counts with
                | Raise e => (Raise e, self)
                | Ok mapping =>
                    (Ok tt, set_colors self (py_sort_reverse count_lt mapping))
                end
            end
        end
    end.

(* ---------------------------------------------------------------- *)
(** ** [estimate_unique_stats] *)

Definition estimate_unique_stats (self : Palette) (img : image)
  (max_sample_dim : option Z) : result (Z * Z * Z) * Palette :=
  let max_sample_dim := or_else max_sample_dim (MAX_SAMPLE_DIM self) in
  let total_pixels := Z.of_nat (List.length (opaque_rgb img)) in
  if total_pixels =? 0 then (Ok (0, 0, 0), self)
  else
    match shrink img max_sample_dim with
    | Raise e => (Raise e, self)
    | Ok sample =>
        let rgb_sample := opaque_rgb sample in
        match rgb_sample with
        | [] => (Ok (0, 0, total_pixels), self)
        | _ =>
            let vals_sample := np_unique rgb_sample in
            (Ok (Z.of_nat (List.length vals_sample),
                 Z.of_nat (List.length rgb_sample), total_pixels), self)
        end
    end.

(* ---------------------------------------------------------------- *)
(** ** [from_image_max] *)

(** The loop over [zip(vals, counts)]. *)
Definition unique_mapping (t : list (triple * nat)) : list entry :=
  map (fun vc => new_entry (fst vc) (Z.of_nat (snd vc))) t.

(** The decision between the exact scan and the sample.  It is taken
    on a sample that has a pixel, so the ratio has a divisor. *)
Definition do_full_scan (self : Palette) (o : max_options)
  (rgb_sample : list triple) (total_pixels : Z) : bool :=
  let unique_threshold := or_else (unique_threshold o) (UNIQUE_THRESHOLD self) in
  let unique_ratio_threshold :=
    or_else (unique_ratio_threshold o) (UNIQUE_RATIO_THRESHOLD self) in
  let full_scan_pixel_limit :=
    or_else (full_scan_pixel_limit o) (FULL_SCAN_PIXEL_LIMIT self) in
  let sample_unique_count := Z.of_nat (List.length (np_unique rgb_sample)) in
  let sample_unique_ratio :=
    true_div sample_unique_count (Z.of_nat (List.length rgb_sample)) in
  if force_full_scan o then true
  else if ((sample_unique_count <=? unique_threshold)
           || fleb sample_unique_ratio (literal unique_ratio_threshold))
          && (total_pixels <=? full_scan_pixel_limit)
       then true
       else false.

(** [max_unique_error is not None and len(vals) > max_unique_error] *)
Definition too_many (max_unique_error : option Z) (len_vals : nat) : bool :=
  match max_unique_error with
  | Some m => Z.of_nat len_vals >? m
  | None => false
  end.

Definition from_image_max (self : Palette) (img : image) (o : max_options)
  : result unit * Palette :=
  let max_sample_dim := or_else (max_sample_dim o) (MAX_SAMPLE_DIM self) in
  let total_pixels := Z.of_nat (List.length (opaque_rgb img)) in
  if total_pixels =? 0 then (Ok tt, set_colors self [])
  else
    match shrink img max_sample_dim with
    | Raise e => (Raise e, self)
    | Ok sample =>
        let rgb_sample := opaque_rgb sample in
        match rgb_sample with
        | [] => (Ok tt, set_colors self [])
        | _ =>
            if do_full_scan self o rgb_sample total_pixels then
              let pixels := opaque_rgb img in
              let vals_counts := np_unique_counts pixels in
              if too_many (max_unique_error o) (List.length vals_counts)
              then (Raise ValueError, self)
              else
                let mapping := unique_mapping vals_counts in
                (Ok tt, set_colors self (py_sort_reverse count_lt mapping))
            else
              let vals_counts := np_unique_counts rgb_sample in
              let mapping := unique_mapping vals_counts in
              (Ok tt, set_colors self (py_sort_reverse count_lt mapping))
        end
    end.

(* ---------------------------------------------------------------- *)
(** ** [sort] *)

Definition hsv (c : triple) : flt * flt * flt :=
  let '(r, g, b) := c in
  rgb_to_hsv (true_div r 255) (true_div g 255) (true_div b 255).

(** The comparison of the keys that [mode] selects. *)
Definition key_lt (mode : string) (x y : entry) : bool :=
  if (mode =? "frequency")%string then (- count x <? - count y)
  else if (mode =? "hue")%string then
    fltb (fst (fst (hsv (rgb x)))) (fst (fst (hsv (rgb y))))
  else if (mode =? "saturation")%string then
    fltb (snd (fst (hsv (rgb x)))) (snd (fst (hsv (rgb y))))
  else if (mode =? "value")%string then
    fltb (snd (hsv (rgb x))) (snd (hsv (rgb y)))
  else if (mode =? "luminance")%string then
    fltb (relative_luminance (rgb x)) (relative_luminance (rgb y))
  else if (mode =? "hex")%string then String.ltb (hex x) (hex y)
  else false.

(** [[x/255 for x in rgb]] raises [OverflowError] for a channel whose
    quotient is too large for a float. *)
Definition unit_check (c : triple) : result unit :=
  let '(r, g, b) := c in
  if div_overflows r 255 || div_overflows g 255 || div_overflows b 255
  then Raise OverflowError
  else Ok tt.

(** What [hsv(rgb)] raises.  [colorsys.rgb_to_hsv] returns at once when
    the least and the greatest channel are equal, and divides by the
    greatest one otherwise: [ZeroDivisionError] when that is 0 and a
    channel is negative. *)
Definition hsv_check (c : triple) : result unit :=
  u <- unit_check c ;;
  let '(r, g, b) := c in
  if (Z.max r (Z.max g b) =? 0) && (Z.min r (Z.min g b) <? 0)
  then Raise ZeroDivisionError
  else Ok tt.

(** What the key of [mode] raises on an entry. *)
Definition key_check (mode : string) (c : entry) : result unit :=
  if (mode =? "frequency")%string then Ok tt
  else if (mode =? "hue")%string then hsv_check (rgb c)
  else if (mode =? "saturation")%string then hsv_check (rgb c)
  else if (mode =? "value")%string then hsv_check (rgb c)
  else if (mode =? "luminance")%string then unit_check (rgb c)
  else Ok tt.

(** [list.sort(key=key)] computes the keys of all elements, first to
    last, before it moves any. *)
Fixpoint keys_check (mode : string) (l : list entry) : result unit :=
  match l with
  | [] => Ok tt
  | c :: l' => u <- key_check mode c ;; keys_check mode l'
  end.

(** How a call of [sort] ends. *)
Definition sort_outcome (self : Palette) (mode : string) (disabled_to_top : bool)
  : result unit :=
  if disabled_to_top then
    u <- keys_check mode (filter (fun c => negb (enabled c)) (colors self)) ;;
    keys_check mode (filter (fun c => enabled c) (colors self))
  else keys_check mode (colors self).

(** The container after [sort].  A key that raises leaves the list that
    is being sorted as it was, and [self.colors] with it. *)
Definition sort (self : Palette) (mode : string) (disabled_to_top : bool)
  : Palette :=
  match sort_outcome self mode disabled_to_top with
  | Raise _ => self
  | Ok _ =>
      if disabled_to_top then
        let disabled := filter (fun c => negb (enabled c)) (colors self) in
        let enabled' := filter (fun c => enabled c) (colors self) in
        set_colors self
          (py_sort (key_lt mode) disabled ++ py_sort (key_lt mode) enabled')
      else set_colors self (py_sort (key_lt mode) (colors self))
  end.

(* ---------------------------------------------------------------- *)
(** ** [toggle_enabled], [add_color], [remove_color], [hex_list] *)

Fixpoint toggle_nth (i : nat) (l : list entry) : list entry :=
  match l, i with
  | [], _ => []
  | e :: l', O => set_enabled (negb (enabled e)) e :: l'
  | e :: l', S i' => e :: toggle_nth i' l'
  end.

Fixpoint pop_nth (i : nat) (l : list entry) : list entry :=
  match l, i with
  | [], _ => []
  | _ :: l', O => l'
  | e :: l', S i' => e :: pop_nth i' l'
  end.

Definition toggle_enabled (self : Palette) (index : Z) : Palette :=
  if (0 <=? index) && (index <? Z.of_nat (List.length (colors self)))
  then set_colors self (toggle_nth (Z.to_nat index) (colors self))
  else self.

Definition add_color (self : Palette) (c : triple) : Palette :=
  let hexc := rgb_to_hex c in
  set_colors self
    (colors self ++ [{| rgb := c; hex := hexc; count := 0; enabled := true |}]).

Definition remove_color (self : Palette) (index : Z) : Palette :=
  if (0 <=? index) && (index <? Z.of_nat (List.length (colors self)))
  then set_colors self (pop_nth (Z.to_nat index) (colors self))
  else self.

Definition hex_list (self : Palette) (enabled_only : bool) : list string :=
  map hex (filter (fun c => enabled c || negb enabled_only) (colors self)).

End Container.


(* ================================================================== *)
(** * What the properties speak about *)
(* ================================================================== *)

Definition triple_eq_dec (c d : triple) : {c = d} + {c <> d}.
Proof. repeat decide equality. Defined.

(** The number of distinct colours of a list of pixels. *)
Definition distinct_count (pixels : list triple) : nat :=
  List.length (nodup triple_eq_dec pixels).

(** The number of pixels of one colour. *)
Definition occurrences (pixels : list triple) (c : triple) : nat :=
  count_occ triple_eq_dec pixels c.

Definition sum_counts (l : list entry) : Z :=
  fold_right (fun e acc => count e + acc) 0 l.

(** Most frequent first. *)
Definition descending (l : list entry) : Prop :=
  StronglySorted (fun x y => count y <= count x) l.

(** [hex] is the rendering of [rgb]. *)
Definition in_sync (l : list entry) : Prop :=
  Forall (fun e => hex e = rgb_to_hex (rgb e)) l.

Definition all_transparent (im : image) : Prop :=
  Forall (fun p => alpha_of p = 0) (data im).

(** Two entries have equal keys when neither key is below the other. *)
Definition same_key `{F : Floats} (mode : string) (x y : entry) : bool :=
  negb (key_lt mode x y) && negb (key_lt mode y x).

(** Non-decreasing keys. *)
Definition ordered `{F : Floats} (mode : string) (l : list entry) : Prop :=
  StronglySorted (fun x y => key_lt mode y x = false) l.

(** ** The order that each mode asks for, as the description has it *)

(** The channels of a colour, brought to the unit interval. *)
Definition unit_interval `{F : Floats} (c : triple) : flt * flt * flt :=
  let '(r, g, b) := c in (true_div r 255, true_div g 255, true_div b 255).

(** Hue, saturation and value: the HSV decomposition of the colour. *)
Definition hsv_decomposition `{F : Floats} (c : triple) : flt * flt * flt :=
  let '(r, g, b) := unit_interval c in rgb_to_hsv r g b.

Definition hue_of `{F : Floats} (c : triple) : flt :=
  let '(h, _, _) := hsv_decomposition c in h.

Definition saturation_of `{F : Floats} (c : triple) : flt :=
  let '(_, s, _) := hsv_decomposition c in s.

Definition value_of `{F : Floats} (c : triple) : flt :=
  let '(_, _, v) := hsv_decomposition c in v.

(** [0.2126 R + 0.7152 G + 0.0722 B] over the channels in the unit
    interval. *)
Definition luminance_of `{F : Floats} (c : triple) : flt :=
  let '(r, g, b) := unit_interval c in
  fadd (fadd (fmul (literal (2126 # 10000)) r) (fmul (literal (7152 # 10000)) g))
       (fmul (literal (722 # 10000)) b).

(** The first float is not above the second; the two are equal in rank. *)
Definition float_le `{F : Floats} (a b : flt) : Prop := fltb b a = false.

Definition float_eqb `{F : Floats} (a b : flt) : bool :=
  negb (fltb a b) && negb (fltb b a).

(** The order of the dictionary on strings, by the codes of their
    characters. *)
Fixpoint lexicographic (s t : string) : Prop :=
  match s, t with
  | EmptyString, _ => True
  | String _ _, EmptyString => False
  | String a s', String b t' =>
      (code a < code b)%N \/ (a = b /\ lexicographic s' t')
  end.

(** [x] may stand before [y] in the order of [mode]: more frequent
    first for [frequency]; rising hue, saturation, value or luminance;
    the order of the dictionary on the hex strings; any order for a
    mode that is not known. *)
Definition in_order `{F : Floats} (mode : string) (x y : entry) : Prop :=
  if (mode =? "frequency")%string then count y <= count x
  else if (mode =? "hue")%string then float_le (hue_of (rgb x)) (hue_of (rgb y))
  else if (mode =? "saturation")%string then
    float_le (saturation_of (rgb x)) (saturation_of (rgb y))
  else if (mode =? "value")%string then
    float_le (value_of (rgb x)) (value_of (rgb y))
  else if (mode =? "luminance")%string then
    float_le (luminance_of (rgb x)) (luminance_of (rgb y))
  else if (mode =? "hex")%string then lexicographic (hex x) (hex y)
  else True.

(** [x] and [y] have equal keys in the order of [mode]. *)
Definition same_rank `{F : Floats} (mode : string) (x y : entry) : bool :=
  if (mode =? "frequency")%string then count x =? count y
  else if (mode =? "hue")%string then float_eqb (hue_of (rgb x)) (hue_of (rgb y))
  else if (mode =? "saturation")%string then
    float_eqb (saturation_of (rgb x)) (saturation_of (rgb y))
  else if (mode =? "value")%string then
    float_eqb (value_of (rgb x)) (value_of (rgb y))
  else if (mode =? "luminance")%string then
    float_eqb (luminance_of (rgb x)) (luminance_of (rgb y))
  else if (mode =? "hex")%string then (hex x =? hex y)%string
  else true.

(** The calls that change a container. *)
Inductive operation : Type :=
| FromImageQuant (img : image) (n : Z) (max_dim : option Z)
| FromImageMax (img : image) (o : max_options)
| Sort (mode : string) (disabled_to_top : bool)
| ToggleEnabled (index : Z)
| AddColor (c : triple)
| RemoveColor (index : Z).

Definition perform `{F : Floats} `{I : Imaging} (self : Palette) (op : operation) : Palette :=
  match op with
  | FromImageQuant img n max_dim => snd (from_image_quant self img n max_dim)
  | FromImageMax img o => snd (from_image_max self img o)
  | Sort mode disabled_to_top => sort self mode disabled_to_top
  | ToggleEnabled index => toggle_enabled self index
  | AddColor c => add_color self c
  | RemoveColor index => remove_color self index
  end.

(* ================================================================== *)
(** * What the libraries promise *)
(* ================================================================== *)

(** [<] on the floats that serve as keys is a strict weak order. *)
Class FloatLaws (F : Floats) : Prop := {
  fltb_asym : forall x y : flt, fltb x y = true -> fltb y x = false;
  fltb_negtrans : forall x y z : flt,
      fltb x y = false -> fltb y z = false -> fltb x z = false
}.

(** The quantiser uses the slots below [colors], each of which has its
    three channels in the flat palette; reducing an image without an
    opaque pixel gives an image without an opaque pixel. *)
Class ImagingLaws (I : Imaging) : Prop := {
  median_cut_slots : forall pixels colors,
      1 <= colors <= 256 ->
      Forall (fun i => Z.of_nat i < colors) (snd (median_cut pixels colors));
  median_cut_palette : forall pixels colors i,
      1 <= colors <= 256 ->
      In i (snd (median_cut pixels colors)) ->
      (3 * i + 2 < List.length (fst (median_cut pixels colors)))%nat;
  lanczos_transparent : forall new_size im,
      all_transparent im -> all_transparent (lanczos new_size im)
}.

(* ------------------------------------------------------------------ *)
(** ** Instances to compute with *)

(** Exact rational arithmetic in place of the floats. *)
Definition qmax (x y : Q) : Q := if Qle_bool x y then y else x.
Definition qmin (x y : Q) : Q := if Qle_bool x y then x else y.
Definition qfloor (x : Q) : Z := Qnum x / Zpos (Qden x).

Definition rational_hsv (r g b : Q) : Q * Q * Q :=
  let maxc := qmax r (qmax g b) in
  let minc := qmin r (qmin g b) in
  let rangec := (maxc - minc)%Q in
  if Qeq_bool minc maxc then (0%Q, 0%Q, maxc)
  else
    let s := (rangec / maxc)%Q in
    let rc := ((maxc - r) / rangec)%Q in
    let gc := ((maxc - g) / rangec)%Q in
    let bc := ((maxc - b) / rangec)%Q in
    let h := if Qeq_bool r maxc then (bc - gc)%Q
             else if Qeq_bool g maxc then (2 + rc - bc)%Q
             else (4 + gc - rc)%Q in
    let h := (h / 6)%Q in
    ((h - inject_Z (qfloor h))%Q, s, maxc).

#[local] Instance rational_floats : Floats := {|
  flt := Q;
  true_div := fun a b => (inject_Z a / inject_Z b)%Q;
  int_times := fun a x => (inject_Z a * x)%Q;
  trunc := fun x => Z.quot (Qnum x) (Zpos (Qden x));
  literal := fun q => q;
  fmul := Qmult;
  fadd := Qplus;
  fltb := fun x y => negb (Qle_bool y x);
  fleb := Qle_bool;
  rgb_to_hsv := rational_hsv
|}.

Definition transparent : rgba := (0, 0, 0, 0).

Definition zrange (n : Z) : list Z := map Z.of_nat (seq 0 (Z.to_nat n)).

(** Reduction by picking pixels: pixel [(x, y)] of the result is pixel
    [(x * w / w', y * h / h')] of the image. *)
Definition nearest (new_size : Z * Z) (im : image) : image :=
  let '(w', h') := new_size in
  let '(w, h) := size im in
  Image new_size
    (flat_map
       (fun y => map (fun x => nth (Z.to_nat ((y * h / h') * w + x * w / w'))
                                   (data im) transparent)
                     (zrange w'))
       (zrange h')).

Fixpoint position (c : triple) (l : list triple) : nat :=
  match l with
  | [] => O
  | d :: l' => if triple_eq_dec c d then O else S (position c l')
  end.

Definition flatten (l : list triple) : list Z :=
  flat_map (fun c => let '(r, g, b) := c in [r; g; b]) l.

(** Quantisation by keeping the first [colors] distinct colours; a pixel
    of a later colour goes to the last slot.  The palette has 256 slots. *)
Definition first_colors (pixels : list triple) (colors : Z) : list Z * list nat :=
  let vals := np_unique pixels in
  (firstn 768 (flatten (firstn (Z.to_nat colors) vals) ++ repeat 0 768),
   map (fun c => Nat.min (position c vals) (Z.to_nat colors - 1)) pixels).

#[local] Instance picking : Imaging := {|
  lanczos := nearest;
  median_cut := first_colors
|}.

(** The sixteen digits of [format(v, 'X')]. *)
Definition upper_digits : list ascii :=
  ["0"; "1"; "2"; "3"; "4"; "5"; "6"; "7"; "8"; "9"; "A"; "B"; "C"; "D"; "E"; "F"]%char.

Definition upper_digit (d : Z) : ascii := nth (Z.to_nat d) upper_digits "F"%char.

(** Two digits, the high one first. *)
Definition two_digits (v : Z) : string :=
  String (upper_digit (v / 16)) (String (upper_digit (v mod 16)) EmptyString).

Fixpoint all_chars (p : ascii -> bool) (s : string) : bool :=
  match s with
  | EmptyString => true
  | String c s' => p c && all_chars p s'
  end.

Definition is_hex (c : ascii) : bool :=
  match hex_value c with Some _ => true | None => false end.


Definition all_ascii : list ascii := map ascii_of_nat (seq 0 256).

(* ================================================================== *)
(** * Tables of counts, and images and containers to compute with *)
(* ================================================================== *)

(** The occurrences that a table records for one colour. *)
Fixpoint weight (d : triple) (t : list (triple * nat)) : nat :=
  match t with
  | [] => O
  | (c, k) :: t' => ((if triple_eq_dec c d then k else O) + weight d t')%nat
  end.

Definition total_weight (t : list (triple * nat)) : nat :=
  fold_right (fun ck acc => (snd ck + acc)%nat) O t.

Definition key_sorted (t : list (triple * nat)) : Prop :=
  StronglySorted (fun a b => triple_compare (fst a) (fst b) = Lt) t.

(** The palette of the exact scan. *)
Definition exact_palette (img : image) : list entry :=
  py_sort_reverse count_lt (unique_mapping (np_unique_counts (opaque_rgb img))).

(** The scenario of the specification: three opaque pixels of two
    colours and one transparent pixel. *)
Definition two_by_two : image :=
  Image (2, 2) [(255, 0, 0, 255); (255, 0, 0, 255); (0, 255, 0, 255); (0, 0, 0, 0)].

(** A row of four pixels of which only the second is opaque, and barely. *)
Definition faint_row : image :=
  Image (4, 1) [(0, 0, 0, 0); (255, 0, 0, 1); (0, 0, 0, 0); (0, 0, 0, 0)].

Definition forced (cap : Z) : max_options :=
  {| force_full_scan := true;
     max_sample_dim := Some cap;
     full_scan_pixel_limit := None;
     unique_threshold := None;
     unique_ratio_threshold := None;
     max_unique_error := Some 0 |}.

Definition two_colors : image := Image (2, 1) [(255, 0, 0, 255); (0, 255, 0, 255)].

Definition capped : max_options :=
  {| force_full_scan := false;
     max_sample_dim := None;
     full_scan_pixel_limit := Some 1;
     unique_threshold := None;
     unique_ratio_threshold := None;
     max_unique_error := Some 1 |}.

(** A row of 2400 pixels of which only the second is opaque. *)
Definition long_row : image :=
  Image (2400, 1) (transparent :: (255, 0, 0, 1) :: repeat transparent 2398).

Definition blank : image := Image (2, 1) [(9, 9, 9, 0); (0, 0, 0, 0)].

Definition busy_palette : Palette :=
  {| colors := [ {| rgb := (1, 2, 3); hex := "#010203"; count := 7; enabled := false |} ];
     MAX_QUANT_DIM := 10;
     MAX_SAMPLE_DIM := 1;
     FULL_SCAN_PIXEL_LIMIT := 0;
     UNIQUE_THRESHOLD := 0;
     UNIQUE_RATIO_THRESHOLD := 1 |}.

Definition one_pixel : image := Image (1, 1) [(10, 20, 30, 255)].

Definition mixed_palette : Palette :=
  set_colors new_palette
    [ {| rgb := (0, 0, 255); hex := "#0000FF"; count := 1; enabled := true |};
      {| rgb := (255, 0, 0); hex := "#FF0000"; count := 5; enabled := false |};
      {| rgb := (0, 255, 0); hex := "#00FF00"; count := 5; enabled := true |};
      {| rgb := (9, 9, 9); hex := "#090909"; count := 5; enabled := false |};
      {| rgb := (1, 1, 1); hex := "#010101"; count := 8; enabled := false |} ].

Definition session : list operation :=
  [ FromImageMax two_by_two default_options;
    AddColor (10, 20, 30);
    ToggleEnabled 1;
    Sort "hex" true;
    RemoveColor 0;
    FromImageQuant two_by_two 300 None;
    FromImageQuant two_by_two 1 None;
    AddColor (255, 255, 255) ].

(* ================================================================== *)
(** * The application's use of the container *)
(* ================================================================== *)

(** [[i for i, c in enumerate(self.palette.colors)
      if not c.get('enabled', True)]] *)
Definition disabled_indices (l : list entry) : list Z :=
  map fst
    (filter (fun ic => negb (enabled (snd ic)))
       (combine (map Z.of_nat (seq 0 (List.length l))) l)).

(** [remove_selected] of [app.py], as far as the container goes: nothing
    when no entry is disabled, else [remove_color] for the disabled
    indices, the largest first. *)
Definition remove_selected (self : Palette) : Palette :=
  let to_remove := disabled_indices (colors self) in
  match to_remove with
  | [] => self
  | _ => fold_left remove_color (rev to_remove) self
  end.

(** [c.lower()] on the code points below 256. *)
Definition lower_char (c : ascii) : ascii :=
  let n := code c in
  if ((65 <=? n) && (n <=? 90)
      || (192 <=? n) && (n <=? 222) && negb (n =? 215))%N
  then ascii_of_N (n + 32)
  else c.

Fixpoint lower (s : string) : string :=
  match s with
  | EmptyString => EmptyString
  | String c s' => String (lower_char c) (lower s')
  end.

Definition dec_value (c : ascii) : option Z :=
  let n := code c in
  if ((48 <=? n) && (n <=? 57))%N then Some (Z.of_N n - 48) else None.

(** The digits of [int(s)], as [int_digits] for base 10. *)
Fixpoint int_digits_10 (s : string) (acc : Z) (after_digit : bool) : option Z :=
  match s with
  | EmptyString => if after_digit then Some acc else None
  | String c s' =>
      match dec_value c with
      | Some d => int_digits_10 s' (10 * acc + d) true
      | None =>
          if Ascii.eqb c "_" then
            if after_digit then int_digits_10 s' acc false else None
          else if after_digit && (lstrip_by is_int_space s =? "")%string
               then Some acc
               else None
      end
  end.

(** The number of decimal digits in [s]. *)
Fixpoint digit_count (s : string) : Z :=
  match s with
  | EmptyString => 0
  | String c s' =>
      (match dec_value c with Some _ => 1 | None => 0 end) + digit_count s'
  end.

(** [int(s)].  A literal of more than 4300 digits, the sign and the
    underscores not counted, is refused with [ValueError], as one that
    is ill-formed. *)
Definition int_10 (s : string) : result Z :=
  let s1 := lstrip_by is_int_space s in
  let r :=
    match s1 with
    | String "+" s2 => int_digits_10 s2 0 false
    | String "-" s2 => option_map Z.opp (int_digits_10 s2 0 false)
    | _ => int_digits_10 s1 0 false
    end in
  match r with
  | Some v => if 4300 <? digit_count s then Raise ValueError else Ok v
  | None => Raise ValueError
  end.

Section Application.
Context `{F : Floats} `{I : Imaging}.

(** The extrapolation of [generate_palette]:
    [min(total_pixels, int(est_unique * (total_pixels / sample_pixels)))]
    when the sample has a pixel, else [est_unique]. *)
Definition est_total_unique (est_unique sample_pixels total_pixels : Z) : Z :=
  if sample_pixels >? 0 then
    Z.min total_pixels
          (trunc (int_times est_unique (true_div total_pixels sample_pixels)))
  else est_unique.

(** [generate_palette] of [app.py], as far as the container goes: what
    the call does to it before the markers and the widgets are redrawn,
    and the exception that leaves the method, if any.  [val] is the text
    of the entry, [answer] what the user answers when asked to confirm a
    large palette: whether to proceed, and whether to force the exact
    scan.  The message boxes and the log are left out. *)
Definition generate_palette (img : option image) (self : Palette)
  (max_warn max_error : Z) (val : string) (answer : bool * bool)
  : result unit * Palette :=
  match img with
  | None => (Ok tt, self)
  | Some img =>
      let val := strip val in
      if (lower val =? "max")%string then
        match estimate_unique_stats self img None with
        | (Raise e, self) => (Raise e, self)
        | (Ok (est_unique, sample_pixels, total_pixels), self) =>
            let est := est_total_unique est_unique sample_pixels total_pixels in
            if est >? max_error then (Ok tt, self)
            else if est >? max_warn then
              let '(proceed, force) := answer in
              if negb proceed then (Ok tt, self)
              else
                match from_image_max self img
                        {| force_full_scan := force;
                           max_sample_dim := None;
                           full_scan_pixel_limit := None;
                           unique_threshold := None;
                           unique_ratio_threshold := None;
                           max_unique_error := Some max_error |} with
                | (Raise ValueError, self) => (Ok tt, self)
                | outcome => outcome
                end
            else from_image_max self img default_options
        end
      else
        match int_10 val with
        | Raise _ => (Ok tt, self)
        | Ok n =>
            if n <=? 0 then (Ok tt, self)
            else from_image_quant self img n (Some (MAX_QUANT_DIM self))
        end
  end.
End Application.

(* ------------------------------------------------------------------ *)
(** ** [_pick_markers] *)

(** The value of an [int16] after an operation that overflows. *)
Definition wrap16 (z : Z) : Z := (z + 32768) mod 65536 - 32768.

Definition fits_int16 (v : Z) : bool := (-32768 <=? v) && (v <=? 32767).

(** One channel of [diffs * diffs]: the difference and its square are
    both [int16]. *)
Definition square16 (p q : Z) : Z :=
  let d := wrap16 (p - q) in wrap16 (d * d).

(** One element of [np.sum(diffs * diffs, axis=2)]; the sum is taken in
    the wide integer of the platform. *)
Definition dist (p q : triple) : Z :=
  let '(r1, g1, b1) := p in
  let '(r2, g2, b2) := q in
  square16 r1 r2 + square16 g1 g2 + square16 b1 b2.

Fixpoint argmin_from (i best : nat) (least : Z) (l : list Z) : nat :=
  match l with
  | [] => best
  | d :: l' =>
      if d <? least then argmin_from (S i) i d l'
      else argmin_from (S i) best least l'
  end.

(** [np.argmin]: the index of the first least element. *)
Definition argmin (l : list Z) : nat :=
  match l with
  | [] => O
  | d :: l' => argmin_from 1 O d l'
  end.

(** One element of [nearest]. *)
Definition nearest_index (pal : list triple) (p : triple) : nat :=
  argmin (map (dist p) pal).

(** The opaque pixels of the sample in the order of [np.argwhere(mask)],
    each with its [(x, y)]: pixel number [j] of an array with rows of
    [w] pixels is in row [j / w] and column [j mod w]. *)
Definition opaque_items (sample : image) : list ((Z * Z) * triple) :=
  let w := fst (size sample) in
  map (fun jp => let j := Z.of_nat (fst jp) in ((j mod w, j / w), rgb_of (snd jp)))
      (filter (fun jp => opaque (snd jp))
              (combine (seq 0 (List.length (data sample))) (data sample))).

(** [mapping] and [remaining]. *)
Record scan_state : Type := {
  mapping : list (option (Z * Z));
  remaining : list nat
}.

Fixpoint set_nth {A : Type} (i : nat) (v : A) (l : list A) : list A :=
  match l, i with
  | [], _ => []
  | _ :: l', O => v :: l'
  | x :: l', S i' => x :: set_nth i' v l'
  end.

(** [mapping[idx] = (x, y)] and [remaining.remove(idx)] *)
Definition assign (idx : nat) (xy : Z * Z) (st : scan_state) : scan_state :=
  {| mapping := set_nth idx (Some xy) (mapping st);
     remaining := remove Nat.eq_dec idx (remaining st) |}.

(** The loop over [enumerate(nearest)], which ends as soon as nothing
    remains. *)
Fixpoint scan_chunk (near : list (nat * (Z * Z))) (st : scan_state) : scan_state :=
  match near with
  | [] => st
  | (idx, xy) :: rest =>
      if existsb (Nat.eqb idx) (remaining st) then
        let st' := assign idx xy st in
        match remaining st' with
        | [] => st'
        | _ => scan_chunk rest st'
        end
      else scan_chunk rest st
  end.

(** The loop over the chunks, which is left when nothing remains. *)
Fixpoint scan_chunks (pal : list triple) (chunks : list (list ((Z * Z) * triple)))
  (st : scan_state) : scan_state :=
  match chunks with
  | [] => st
  | c :: chunks' =>
      match remaining st with
      | [] => st
      | _ =>
          let near := map (fun it => (nearest_index pal (snd it), fst it)) c in
          scan_chunks pal chunks' (scan_chunk near st)
      end
  end.

Definition chunk : nat := Z.to_nat 20000.

(** [pixels[start:end]] for [start] in [range(0, total, chunk)] *)
Fixpoint chunks_of {A : Type} (fuel : nat) (items : list A) : list (list A) :=
  match fuel, items with
  | O, _ | _, [] => []
  | S fuel', _ => firstn chunk items :: chunks_of fuel' (skipn chunk items)
  end.

(** The matching of the pixels with the palette: [mapping] when the loops
    are over. *)
Definition match_pixels (pal : list triple) (items : list ((Z * Z) * triple))
  : list (option (Z * Z)) :=
  let k := List.length pal in
  mapping (scan_chunks pal (chunks_of (List.length items) items)
             {| mapping := repeat None k; remaining := seq 0 k |}).

Definition marker : Type := (triple * option (Z * Z))%type.

Section Markers.
Context `{F : Floats}.
(** [img.resize(size, Image.NEAREST)], and [n / x] for an [int] and a
    float. *)
Variable resize_nearest : Z * Z -> image -> image.
Variable int_over : Z -> flt -> flt.

(** The sample of [_pick_markers] and its scale; the longer edge that is
    divided by exceeds 420. *)
Definition marker_sample (img : image) : flt * image :=
  let '(w, h) := size img in
  let max_dim := 420 in
  if Z.max w h >? max_dim then
    let sample_scale := true_div max_dim (Z.max w h) in
    (sample_scale,
     resize_nearest (Z.max 1 (trunc (int_times w sample_scale)),
                     Z.max 1 (trunc (int_times h sample_scale))) img)
  else (literal 1, img).

(** The last loop: the position in the sample becomes one in the image,
    is kept inside the image, and becomes one on the display.  A position
    is a pair, so [if pos] asks whether there is one. *)
Definition place (w h : Z) (sample_scale display_scale : flt)
  (c : entry) (pos : option (Z * Z)) : marker :=
  match pos with
  | Some (x, y) =>
      let orig_x := trunc (int_over x sample_scale) in
      let orig_y := trunc (int_over y sample_scale) in
      let orig_x := Z.max 0 (Z.min orig_x (w - 1)) in
      let orig_y := Z.max 0 (Z.min orig_y (h - 1)) in
      let disp_x := trunc (int_times orig_x display_scale) in
      let disp_y := trunc (int_times orig_y display_scale) in
      (rgb c, Some (disp_x, disp_y))
  | None => (rgb c, None)
  end.

Definition int16_colour (c : triple) : bool :=
  let '(r, g, b) := c in fits_int16 r && fits_int16 g && fits_int16 b.

(** [_pick_markers]: the markers it leaves in [self.markers], or [None]
    when [np.array(.., dtype=np.int16)] refuses a channel of the palette
    with [OverflowError], as NumPy 2 does. *)
Definition _pick_markers (img : option image) (colors : list entry)
  (display_scale : flt) : option (list marker) :=
  match img, colors with
  | None, _ => Some []
  | _, [] => Some []
  | Some img, _ =>
      let '(w, h) := size img in
      let '(sample_scale, sample) := marker_sample img in
      match opaque_items sample with
      | [] => Some (map (fun c => (rgb c, None)) colors)
      | items =>
          let pal := map rgb colors in
          if forallb int16_colour pal then
            let mapping := match_pixels pal items in
            Some (map (fun ic => place w h sample_scale display_scale (snd ic)
                                   (nth (fst ic) mapping None))
                      (combine (seq 0 (List.length colors)) colors))
          else None
      end
  end.
End Markers.

Definition in_range (v : Z) : Prop := -15 <= v <= 255.

Definition is_byte (v : Z) : Prop := 0 <= v <= 255.

Definition byte_colour (c : triple) : Prop :=
  let '(r, g, b) := c in is_byte r /\ is_byte g /\ is_byte b.

(* ================================================================== *)
(** * Further vocabulary and sample data *)
(* ================================================================== *)

(** What [int(s, 16)] gives, if anything, lies between -15 and 255. *)
Definition bounded_result (s : string) : bool :=
  match int_16 s with
  | Ok v => (-15 <=? v) && (v <=? 255)
  | Raise _ => true
  end.

(** The two digits written for [v] have no blank and no hash among
    them, and are read back as [v]. *)
Definition reads_back (v : Z) : bool :=
  match format_02X v with
  | String a (String b EmptyString) =>
      negb (is_space a) && negb (is_space b) && negb (Ascii.eqb "#" a)
      && match int_16 (String a (String b EmptyString)) with
         | Ok x => x =? v
         | Raise _ => false
         end
  | _ => false
  end.

(** The indices of the disabled entries of [l] when [l] starts at
    position [k]. *)
Fixpoint disabled_from (k : nat) (l : list entry) : list nat :=
  match l with
  | [] => []
  | e :: l' => (if enabled e then [] else [k]) ++ disabled_from (S k) l'
  end.

(** The six modes that [sort] knows. *)
Definition known_mode (mode : string) : bool :=
  ((mode =? "frequency") || (mode =? "hue") || (mode =? "saturation")
   || (mode =? "value") || (mode =? "luminance") || (mode =? "hex"))%string.

(** The palette that a scan of [pixels] gives. *)
Definition scan_palette (pixels : list triple) : list entry :=
  py_sort_reverse count_lt (unique_mapping (np_unique_counts pixels)).


(** The squared distance of two colours. *)
Definition euclid (p q : triple) : Z :=
  let '(r1, g1, b1) := p in
  let '(r2, g2, b2) := q in
  (r1 - r2) * (r1 - r2) + (g1 - g2) * (g1 - g2) + (b1 - b2) * (b1 - b2).

(** No channel of the two colours differs by more than 181. *)
Definition close (p q : triple) : Prop :=
  let '(r1, g1, b1) := p in
  let '(r2, g2, b2) := q in
  Z.abs (r1 - r2) <= 181 /\ Z.abs (g1 - g2) <= 181 /\ Z.abs (b1 - b2) <= 181.

(** Sample colours and pixels. *)
Definition three_colours : list triple := [(0, 0, 0); (100, 100, 100); (180, 20, 20)].

Definition reddish : triple := (170, 30, 30).

Definition red_and_black : list triple := [(255, 0, 0); (0, 0, 0)].

(** The position of the first pixel, in the order of the scan, whose
    nearest colour has index [i]. *)
Definition first_match (pal : list triple) (items : list ((Z * Z) * triple))
  (i : nat) : option (Z * Z) :=
  option_map fst (find (fun it => (nearest_index pal (snd it) =? i)%nat) items).

(** The same on the list of the nearest indices with their positions. *)
Definition first_near (near : list (nat * (Z * Z))) (i : nat) : option (Z * Z) :=
  option_map snd (find (fun n => (fst n =? i)%nat) near).

(** The nearest index of each pixel, with the position of the pixel. *)
Definition near_of (pal : list triple) (items : list ((Z * Z) * triple))
  : list (nat * (Z * Z)) :=
  map (fun it => (nearest_index pal (snd it), fst it)) items.

(** What holds of [mapping] and [remaining] when the pixels [done] have
    been gone through. *)
Definition scanned (k : nat) (done : list (nat * (Z * Z))) (st : scan_state) : Prop :=
  List.length (mapping st) = k
  /\ (forall i, (i < k)%nat -> nth i (mapping st) None = first_near done i)
  /\ (forall i, In i (remaining st) <-> (i < k)%nat /\ first_near done i = None).

(** One pixel more, when the loop goes on. *)
Definition scan_one (idx : nat) (xy : Z * Z) (st : scan_state) : scan_state :=
  if existsb (Nat.eqb idx) (remaining st) then assign idx xy st else st.

Definition three_pixels : list ((Z * Z) * triple) :=
  [((0, 0), (250, 0, 0)); ((1, 0), (10, 10, 10)); ((2, 0), (240, 10, 10))].

(** A colour outside the 8-bit channels, whose hue divides by zero. *)
Definition odd_palette : Palette :=
  set_colors new_palette
    [ {| rgb := (9, 9, 9); hex := "#090909"; count := 2; enabled := true |};
      {| rgb := (0, -1, 0); hex := "#00-100"; count := 1; enabled := true |};
      {| rgb := (1, 1, 1); hex := "#010101"; count := 0; enabled := true |} ].

(** A sample cap far below zero. *)
Definition far_below : max_options :=
  {| force_full_scan := false;
     max_sample_dim := Some (- 2 ^ 1100);
     full_scan_pixel_limit := None;
     unique_threshold := None;
     unique_ratio_threshold := None;
     max_unique_error := None |}.

(** The digit 7, [n] times. *)
Fixpoint sevens (n : nat) : string :=
  match n with
  | O => EmptyString
  | S n' => String "7" (sevens n')
  end.

Definition long_literal : string := sevens 4301.

(** Reduction by the pixels, and division of an integer, to compute
    with. *)
Definition rational_over (n : Z) (x : Q) : Q := (inject_Z n / x)%Q.

Definition red_on_black : image :=
  Image (3, 1) [(250, 0, 0, 255); (0, 0, 0, 0); (10, 10, 10, 255)].

Definition red_black_entries : list entry :=
  [ {| rgb := (255, 0, 0); hex := "#FF0000"; count := 1; enabled := true |};
    {| rgb := (0, 0, 0); hex := "#000000"; count := 1; enabled := true |};
    {| rgb := (0, 0, 255); hex := "#0000FF"; count := 0; enabled := true |} ].

(* ================================================================== *)
(** * The codec: proofs *)
(* ================================================================== *)

Example rgb_to_hex_ex : rgb_to_hex (10, 20, 30) = "#0A141E"%string.
Proof. reflexivity. Qed.

Example hex_to_rgb_ex : hex_to_rgb "  #0a141E "%string = Ok (10, 20, 30).
Proof. reflexivity. Qed.

Example hex_to_rgb_short : hex_to_rgb "#ABCD"%string = Raise ValueError.
Proof. reflexivity. Qed.

Example int_16_forms :
  int_16 "+f"%string = Ok 15 /\ int_16 "-A"%string = Ok (-10) /\
  int_16 " 7"%string = Ok 7 /\ int_16 "0x"%string = Raise ValueError /\
  int_16 "_1"%string = Raise ValueError /\ int_16 "1_"%string = Raise ValueError /\
  int_16 ""%string = Raise ValueError.
Proof. repeat split. Qed.

Lemma zrange_In (n v : Z) : 0 <= v < n -> In v (zrange n).
Proof.
  intros Hv. unfold zrange. apply in_map_iff.
  exists (Z.to_nat v). split; [lia|]. apply in_seq. lia.
Qed.

Lemma byte_forall (P : Z -> bool) :
  forallb P (zrange 256) = true -> forall v, 0 <= v <= 255 -> P v = true.
Proof.
  intros H v Hv. rewrite forallb_forall in H. apply H, zrange_In. lia.
Qed.

Lemma ascii_forall (P : ascii -> bool) :
  forallb P all_ascii = true -> forall c, P c = true.
Proof.
  intros H c. rewrite forallb_forall in H. apply H.
  unfold all_ascii. apply in_map_iff. exists (nat_of_ascii c).
  split; [apply ascii_nat_embedding|].
  apply in_seq. pose proof (nat_ascii_bounded c). lia.
Qed.

Lemma format_02X_byte (v : Z) : 0 <= v <= 255 -> format_02X v = two_digits v.
Proof.
  intros Hv.
  apply String.eqb_eq.
  revert v Hv.
  apply (byte_forall (fun v => String.eqb (format_02X v) (two_digits v))).
  vm_compute. reflexivity.
Qed.

Lemma int_16_two_digits (v : Z) : 0 <= v <= 255 -> int_16 (two_digits v) = Ok v.
Proof.
  intros Hv.
  assert (H : match int_16 (two_digits v) with
              | Ok x => x =? v
              | Raise _ => false
              end = true).
  { revert v Hv.
    apply (byte_forall (fun v => match int_16 (two_digits v) with
                                 | Ok x => x =? v
                                 | Raise _ => false
                                 end)).
    vm_compute. reflexivity. }
  destruct (int_16 (two_digits v)); [|discriminate].
  apply Z.eqb_eq in H. now subst.
Qed.

Lemma upper_digit_plain (d : Z) :
  is_space (upper_digit d) = false /\ Ascii.eqb "#" (upper_digit d) = false.
Proof.
  assert (Hin : In (upper_digit d) upper_digits).
  { unfold upper_digit.
    destruct (nth_in_or_default (Z.to_nat d) upper_digits "F"%char) as [H | H];
      [exact H|]. rewrite H. simpl. intuition. }
  assert (Hall : Forall (fun c => is_space c = false /\ Ascii.eqb "#" c = false)
                        upper_digits).
  { repeat constructor. }
  rewrite Forall_forall in Hall. now apply Hall.
Qed.

Lemma rstrip_by_cons_keep (p : ascii -> bool) (c : ascii) (s : string) :
  p c = false -> rstrip_by p (String c s) = String c (rstrip_by p s).
Proof.
  intros Hc. simpl. rewrite Hc. now destruct (rstrip_by p s).
Qed.

Lemma lstrip_by_cons_keep (p : ascii -> bool) (c : ascii) (s : string) :
  p c = false -> lstrip_by p (String c s) = String c s.
Proof. intros Hc. simpl. now rewrite Hc. Qed.








(** C4.  For a triple of 8-bit channels, [rgb_to_hex] writes [#] and two
    upper-case digits per channel, the high digit first, and [hex_to_rgb]
    reads the triple back from that string. *)
Theorem hex_to_rgb_rgb_to_hex (r g b : Z) :
  0 <= r <= 255 -> 0 <= g <= 255 -> 0 <= b <= 255 ->
  rgb_to_hex (r, g, b)
    = String "#" (two_digits r ++ two_digits g ++ two_digits b)%string
  /\ hex_to_rgb (rgb_to_hex (r, g, b)) = Ok (r, g, b).
Proof.
  intros Hr Hg Hb.
  assert (Hfmt : rgb_to_hex (r, g, b)
                 = String "#" (two_digits r ++ two_digits g ++ two_digits b)%string).
  { unfold rgb_to_hex. now rewrite !format_02X_byte. }
  split; [exact Hfmt|].
  rewrite Hfmt. unfold hex_to_rgb, strip.
  pose proof (int_16_two_digits r Hr) as Ir.
  pose proof (int_16_two_digits g Hg) as Ig.
  pose proof (int_16_two_digits b Hb) as Ib.
  unfold two_digits in *. simpl String.append.
  destruct (upper_digit_plain (r / 16)) as [S1 H1].
  destruct (upper_digit_plain (r mod 16)) as [S2 _].
  destruct (upper_digit_plain (g / 16)) as [S3 _].
  destruct (upper_digit_plain (g mod 16)) as [S4 _].
  destruct (upper_digit_plain (b / 16)) as [S5 _].
  destruct (upper_digit_plain (b mod 16)) as [S6 _].
  rewrite lstrip_by_cons_keep by reflexivity.
  rewrite (rstrip_by_cons_keep is_space "#") by reflexivity.
  rewrite !rstrip_by_cons_keep by assumption.
  unfold lstrip_hash. simpl rstrip_by.
  change (lstrip_by (Ascii.eqb "#") (String "#" ?s))
    with (lstrip_by (Ascii.eqb "#") s).
  rewrite lstrip_by_cons_keep by assumption.
  unfold slice2. simpl substring.
  rewrite Ir. simpl bind. rewrite Ig. simpl bind. rewrite Ib. reflexivity.
Qed.

Lemma hex_to_rgb_rgb_to_hex_witness :
  rgb_to_hex (10, 20, 30) = "#0A141E"%string
  /\ hex_to_rgb (rgb_to_hex (10, 20, 30)) = Ok (10, 20, 30).
Proof.
  apply (hex_to_rgb_rgb_to_hex 10 20 30); lia.
Defined.




(* ================================================================== *)
(** * Counting colours: proofs *)
(* ================================================================== *)

Ltac compare_cases :=
  repeat match goal with
         | |- context [?a ?= ?b] => destruct (Z.compare_spec a b)
         | H : context [?a ?= ?b] |- _ => destruct (Z.compare_spec a b)
         end.

Lemma triple_compare_eq (c d : triple) : triple_compare c d = Eq <-> c = d.
Proof.
  destruct c as [[r1 g1] b1], d as [[r2 g2] b2]. unfold triple_compare.
  split.
  - compare_cases; intros; subst; congruence.
  - intros E. inversion E; subst. now rewrite !Z.compare_refl.
Qed.

Lemma triple_compare_trans (c d e : triple) :
  triple_compare c d = Lt -> triple_compare d e = Lt -> triple_compare c e = Lt.
Proof.
  destruct c as [[r1 g1] b1], d as [[r2 g2] b2], e as [[r3 g3] b3].
  unfold triple_compare.
  compare_cases; intros; subst; try congruence; try lia.
Qed.

Lemma triple_compare_flip (c d : triple) :
  triple_compare c d = Gt -> triple_compare d c = Lt.
Proof.
  destruct c as [[r1 g1] b1], d as [[r2 g2] b2]. unfold triple_compare.
  compare_cases; intros; subst; try congruence; try lia.
Qed.

Lemma triple_compare_irrefl (c : triple) : triple_compare c c <> Lt.
Proof.
  assert (E : triple_compare c c = Eq) by now apply triple_compare_eq.
  congruence.
Qed.

Lemma weight_tally (c d : triple) (t : list (triple * nat)) :
  weight d (tally c t) = ((if triple_eq_dec c d then 1 else 0) + weight d t)%nat.
Proof.
  induction t as [|[e k] t IH]; simpl.
  - lia.
  - destruct (triple_compare c e) eqn:E; simpl.
    + apply triple_compare_eq in E. subst e.
      destruct (triple_eq_dec c d); lia.
    + lia.
    + rewrite IH. lia.
Qed.

Lemma weight_np_unique_counts (pixels : list triple) (d : triple) :
  weight d (np_unique_counts pixels) = occurrences pixels d.
Proof.
  unfold occurrences.
  induction pixels as [|c pixels IH]; simpl; [reflexivity|].
  rewrite weight_tally, IH. destruct (triple_eq_dec c d); lia.
Qed.

Lemma total_weight_tally (c : triple) (t : list (triple * nat)) :
  total_weight (tally c t) = S (total_weight t).
Proof.
  induction t as [|[e k] t IH]; simpl; [reflexivity|].
  destruct (triple_compare c e); simpl; try rewrite IH; unfold total_weight; lia.
Qed.

Lemma total_weight_np_unique_counts (pixels : list triple) :
  total_weight (np_unique_counts pixels) = List.length pixels.
Proof.
  induction pixels as [|c pixels IH]; simpl; [reflexivity|].
  now rewrite total_weight_tally, IH.
Qed.

Lemma tally_Forall (Q : triple -> Prop) (c : triple) (t : list (triple * nat)) :
  Q c -> Forall (fun e => Q (fst e)) t -> Forall (fun e => Q (fst e)) (tally c t).
Proof.
  intros Hc. induction t as [|[e k] t IH]; simpl; intros Ht.
  - constructor; [exact Hc | constructor].
  - inversion Ht as [|? ? He Ht']; subst.
    destruct (triple_compare c e); constructor; auto.
Qed.

Lemma tally_sorted (c : triple) (t : list (triple * nat)) :
  key_sorted t -> key_sorted (tally c t).
Proof.
  unfold key_sorted.
  induction t as [|[e k] t IH]; simpl; intros Ht.
  - constructor; constructor.
  - inversion Ht as [|? ? Ht' Hall]; subst.
    destruct (triple_compare c e) eqn:E.
    + constructor; assumption.
    + constructor; [assumption|].
      constructor; [exact E|].
      eapply Forall_impl; [|exact Hall].
      intros a Ha. simpl in *. eapply triple_compare_trans; eassumption.
    + constructor; [auto|].
      apply (tally_Forall (fun x => triple_compare e x = Lt)).
      * now apply triple_compare_flip.
      * exact Hall.
Qed.

Lemma np_unique_counts_sorted (pixels : list triple) :
  key_sorted (np_unique_counts pixels).
Proof.
  induction pixels as [|c pixels IH]; simpl.
  - constructor.
  - now apply tally_sorted.
Qed.

Lemma key_sorted_NoDup (t : list (triple * nat)) :
  key_sorted t -> NoDup (map fst t).
Proof.
  induction 1 as [|a t Ht IH Hall]; simpl; constructor; [|assumption].
  intros Hin. apply in_map_iff in Hin as [b [Hb Hin]].
  rewrite Forall_forall in Hall. specialize (Hall b Hin).
  rewrite Hb in Hall. now apply triple_compare_irrefl in Hall.
Qed.

Lemma tally_keys (c d : triple) (t : list (triple * nat)) :
  In d (map fst (tally c t)) <-> d = c \/ In d (map fst t).
Proof.
  induction t as [|[e k] t IH]; simpl.
  - intuition.
  - destruct (triple_compare c e) eqn:E; simpl.
    + apply triple_compare_eq in E. subst e. intuition.
    + intuition.
    + rewrite IH. intuition.
Qed.

Lemma np_unique_In (pixels : list triple) (d : triple) :
  In d (np_unique pixels) <-> In d pixels.
Proof.
  unfold np_unique.
  induction pixels as [|c pixels IH]; simpl; [tauto|].
  rewrite tally_keys, IH. intuition.
Qed.

Lemma np_unique_length (pixels : list triple) :
  List.length (np_unique pixels) = distinct_count pixels.
Proof.
  unfold distinct_count. apply Permutation_length, NoDup_Permutation.
  - apply key_sorted_NoDup, np_unique_counts_sorted.
  - apply NoDup_nodup.
  - intros d. rewrite np_unique_In, nodup_In. tauto.
Qed.

Lemma np_unique_counts_length (pixels : list triple) :
  List.length (np_unique_counts pixels) = distinct_count pixels.
Proof.
  rewrite <- np_unique_length. unfold np_unique. now rewrite length_map.
Qed.

Lemma weight_absent (d : triple) (t : list (triple * nat)) :
  ~ In d (map fst t) -> weight d t = O.
Proof.
  induction t as [|[e k] t IH]; simpl; intros H; [reflexivity|].
  destruct (triple_eq_dec e d); [tauto|]. rewrite IH; tauto.
Qed.

Lemma weight_entry (d : triple) (k : nat) (t : list (triple * nat)) :
  NoDup (map fst t) -> In (d, k) t -> weight d t = k.
Proof.
  induction t as [|[e j] t IH]; simpl; intros Hnd Hin; [tauto|].
  inversion Hnd as [|? ? Hnot Hnd']; subst.
  destruct Hin as [E | Hin].
  - inversion E; subst. destruct (triple_eq_dec d d); [|congruence].
    rewrite weight_absent by assumption. lia.
  - destruct (triple_eq_dec e d) as [E | _].
    + subst e. exfalso. apply Hnot. apply in_map_iff. now exists (d, k).
    + now apply IH.
Qed.

Lemma np_unique_counts_exact (pixels : list triple) (d : triple) (k : nat) :
  In (d, k) (np_unique_counts pixels) -> k = occurrences pixels d.
Proof.
  intros Hin. rewrite <- weight_np_unique_counts. symmetry.
  apply weight_entry; [|assumption].
  apply key_sorted_NoDup, np_unique_counts_sorted.
Qed.

Example np_unique_counts_ex :
  np_unique_counts [(255, 0, 0); (0, 255, 0); (255, 0, 0)]
  = [((0, 255, 0), 1%nat); ((255, 0, 0), 2%nat)].
Proof. reflexivity. Qed.

(* ================================================================== *)
(** * [list.sort]: proofs *)
(* ================================================================== *)

Section PySortFacts.
Context {A : Type}.
Variable lt : A -> A -> bool.

Lemma insert_stable_perm (x : A) (l : list A) :
  Permutation (x :: l) (insert_stable lt x l).
Proof.
  induction l as [|y l IH]; simpl; [reflexivity|].
  destruct (lt y x); [|reflexivity].
  rewrite perm_swap. now constructor.
Qed.

Lemma py_sort_perm (l : list A) : Permutation l (py_sort lt l).
Proof.
  induction l as [|x l IH]; simpl; [constructor|].
  rewrite <- insert_stable_perm. now constructor.
Qed.

Lemma py_sort_Forall (P : A -> Prop) (l : list A) :
  Forall P l -> Forall P (py_sort lt l).
Proof.
  intros H. rewrite Forall_forall in *. intros x Hx. apply H.
  eapply Permutation_in; [symmetry; apply py_sort_perm | exact Hx].
Qed.

Lemma py_sort_length (l : list A) : List.length (py_sort lt l) = List.length l.
Proof. symmetry. apply Permutation_length, py_sort_perm. Qed.

(** The keys form a strict weak order. *)
Hypothesis lt_asym : forall x y, lt x y = true -> lt y x = false.
Hypothesis lt_negtrans :
  forall x y z, lt x y = false -> lt y z = false -> lt x z = false.

Lemma insert_stable_sorted (x : A) (l : list A) :
  StronglySorted (not_above lt) l -> StronglySorted (not_above lt) (insert_stable lt x l).
Proof.
  induction l as [|y l IH]; simpl; intros Hl.
  - constructor; constructor.
  - inversion Hl as [|? ? Hl' Hall]; subst.
    destruct (lt y x) eqn:E.
    + constructor; [auto|].
      assert (Hperm := insert_stable_perm x l).
      rewrite Forall_forall in *. intros z Hz.
      apply Permutation_in with (l' := x :: l) in Hz;
        [|symmetry; exact Hperm].
      destruct Hz as [-> | Hz]; [|now apply Hall].
      unfold not_above. now apply lt_asym.
    + constructor; [assumption|].
      constructor; [exact E|].
      rewrite Forall_forall in *. intros z Hz.
      unfold not_above in *. eapply lt_negtrans; [|exact E].
      now apply Hall.
Qed.

Lemma py_sort_sorted (l : list A) : StronglySorted (not_above lt) (py_sort lt l).
Proof.
  induction l as [|x l IH]; simpl; [constructor|].
  now apply insert_stable_sorted.
Qed.

Lemma equal_keys_clash (x y z : A) :
  lt y x = true -> equal_keys lt z y = true -> equal_keys lt z x = true -> False.
Proof.
  unfold equal_keys. intros Hyx Hzy Hzx.
  apply andb_prop in Hzy as [_ Hyz]. apply andb_prop in Hzx as [Hzx _].
  apply negb_true_iff in Hyz, Hzx.
  rewrite (lt_negtrans y z x Hyz Hzx) in Hyx. discriminate.
Qed.

Lemma insert_stable_filter (z x : A) (l : list A) :
  filter (equal_keys lt z) (insert_stable lt x l)
  = filter (equal_keys lt z) (x :: l).
Proof.
  induction l as [|y l IH]; [reflexivity|].
  simpl insert_stable. destruct (lt y x) eqn:E; [|reflexivity].
  simpl. simpl in IH. rewrite IH.
  destruct (equal_keys lt z y) eqn:Ey, (equal_keys lt z x) eqn:Ex; try reflexivity.
  exfalso. eapply equal_keys_clash; eassumption.
Qed.

(** Stability: the elements whose key equals a given one keep their
    order. *)
Lemma py_sort_stable (z : A) (l : list A) :
  filter (equal_keys lt z) (py_sort lt l) = filter (equal_keys lt z) l.
Proof.
  induction l as [|x l IH]; [reflexivity|].
  simpl py_sort. rewrite insert_stable_filter. simpl. now rewrite IH.
Qed.
End PySortFacts.

Lemma StronglySorted_weaken {A : Type} (R S : A -> A -> Prop) (l : list A) :
  (forall x y, R x y -> S x y) -> StronglySorted R l -> StronglySorted S l.
Proof.
  intros HRS. induction 1 as [|x l Hl IH Hall]; constructor; [assumption|].
  eapply Forall_impl; [|exact Hall]. intros y. apply HRS.
Qed.

Lemma py_sort_reverse_descending (l : list entry) :
  descending (py_sort_reverse count_lt l).
Proof.
  unfold descending, py_sort_reverse.
  apply StronglySorted_weaken with (R := not_above (fun x y => count_lt y x)).
  - intros x y H. unfold not_above, count_lt in H. lia.
  - apply py_sort_sorted; unfold count_lt; intros; lia.
Qed.

(* ================================================================== *)
(** * The builders: proofs *)
(* ================================================================== *)

Lemma sum_counts_perm (l l' : list entry) :
  Permutation l l' -> sum_counts l = sum_counts l'.
Proof.
  induction 1; simpl; lia.
Qed.

Lemma unique_mapping_sum (t : list (triple * nat)) :
  sum_counts (unique_mapping t) = Z.of_nat (total_weight t).
Proof.
  induction t as [|[c k] t IH]; simpl; [reflexivity|].
  rewrite IH. unfold total_weight. simpl. lia.
Qed.

Lemma unique_mapping_in_sync (t : list (triple * nat)) :
  in_sync (unique_mapping t).
Proof.
  unfold in_sync, unique_mapping. apply Forall_forall. intros e He.
  apply in_map_iff in He as [[c k] [<- _]]. reflexivity.
Qed.

Lemma unique_mapping_exact (pixels : list triple) :
  Forall (fun e => count e = Z.of_nat (occurrences pixels (rgb e)))
         (unique_mapping (np_unique_counts pixels)).
Proof.
  apply Forall_forall. intros e He.
  apply in_map_iff in He as [[c k] [<- Hin]]. simpl.
  now rewrite (np_unique_counts_exact _ _ _ Hin).
Qed.

Lemma unique_mapping_rgb (t : list (triple * nat)) :
  map rgb (unique_mapping t) = map fst t.
Proof.
  unfold unique_mapping. rewrite map_map. reflexivity.
Qed.

Lemma exact_palette_perm (img : image) :
  Permutation (unique_mapping (np_unique_counts (opaque_rgb img))) (exact_palette img).
Proof. apply py_sort_perm. Qed.

Lemma exact_palette_length (img : image) :
  List.length (exact_palette img) = distinct_count (opaque_rgb img).
Proof.
  rewrite <- (Permutation_length (exact_palette_perm img)).
  unfold unique_mapping. rewrite length_map. apply np_unique_counts_length.
Qed.

Lemma exact_palette_sum (img : image) :
  sum_counts (exact_palette img) = Z.of_nat (List.length (opaque_rgb img)).
Proof.
  rewrite <- (sum_counts_perm _ _ (exact_palette_perm img)).
  now rewrite unique_mapping_sum, total_weight_np_unique_counts.
Qed.

Lemma exact_palette_counts (img : image) :
  Forall (fun e => count e = Z.of_nat (occurrences (opaque_rgb img) (rgb e)))
         (exact_palette img).
Proof. apply py_sort_Forall, unique_mapping_exact. Qed.

Lemma exact_palette_colours (img : image) (c : triple) :
  In c (map rgb (exact_palette img)) <-> In c (opaque_rgb img).
Proof.
  split; intros H.
  - apply np_unique_In. unfold np_unique. rewrite <- unique_mapping_rgb.
    eapply Permutation_in; [|exact H].
    apply Permutation_map. symmetry. apply exact_palette_perm.
  - apply np_unique_In in H. unfold np_unique in H.
    rewrite <- unique_mapping_rgb in H.
    eapply Permutation_in; [|exact H].
    apply Permutation_map, exact_palette_perm.
Qed.

Section Builders.
Context `{F : Floats} `{I : Imaging}.

Lemma from_image_max_no_pixel (self : Palette) (img : image) (o : max_options) :
  opaque_rgb img = [] ->
  from_image_max self img o = (Ok tt, set_colors self []).
Proof. intros E. unfold from_image_max. now rewrite E. Qed.

Lemma from_image_max_pixel (self : Palette) (img : image) (o : max_options) :
  opaque_rgb img <> [] ->
  from_image_max self img o =
  match shrink img (or_else (max_sample_dim o) (MAX_SAMPLE_DIM self)) with
  | Raise e => (Raise e, self)
  | Ok sample =>
      match opaque_rgb sample with
      | [] => (Ok tt, set_colors self [])
      | _ =>
          if do_full_scan self o (opaque_rgb sample)
               (Z.of_nat (List.length (opaque_rgb img)))
          then
            if too_many (max_unique_error o)
                 (List.length (np_unique_counts (opaque_rgb img)))
            then (Raise ValueError, self)
            else (Ok tt, set_colors self (exact_palette img))
          else
            (Ok tt, set_colors self
               (py_sort_reverse count_lt
                  (unique_mapping (np_unique_counts (opaque_rgb sample)))))
      end
  end.
Proof.
  intros E.
  assert (Hz : (Z.of_nat (List.length (opaque_rgb img)) =? 0) = false).
  { destruct (opaque_rgb img); [congruence|]. apply Z.eqb_neq. simpl. lia. }
  unfold from_image_max. rewrite Hz. reflexivity.
Qed.

Lemma too_many_spec (m : option Z) (img : image) :
  too_many m (List.length (np_unique_counts (opaque_rgb img))) = true
  <-> exists k, m = Some k /\ Z.of_nat (distinct_count (opaque_rgb img)) > k.
Proof.
  rewrite np_unique_counts_length. unfold too_many.
  destruct m as [k|].
  - rewrite Z.gtb_gt. split.
    + intros H. now exists k.
    + intros [k' [E H]]. inversion E. now subst.
  - split; [discriminate | intros [k [E _]]; discriminate].
Qed.
End Builders.

Section MaxMode.
Context `{F : Floats} `{I : Imaging}.

(** C1, as the code has it.  [from_image_max] raises [ValueError]
    exactly when the image has an opaque pixel, its sample has one too,
    the call decides for the exact scan, a cap [m] is given and the
    number of distinct colours of the opaque pixels exceeds [m]; and
    whenever the call raises, the container is what it was. *)
Theorem from_image_max_raises (self : Palette) (img : image) (o : max_options) :
  (fst (from_image_max self img o) = Raise ValueError <->
   exists sample m,
     opaque_rgb img <> [] /\
     shrink img (or_else (max_sample_dim o) (MAX_SAMPLE_DIM self)) = Ok sample /\
     opaque_rgb sample <> [] /\
     do_full_scan self o (opaque_rgb sample)
       (Z.of_nat (List.length (opaque_rgb img))) = true /\
     max_unique_error o = Some m /\
     Z.of_nat (distinct_count (opaque_rgb img)) > m)
  /\ (forall e, fst (from_image_max self img o) = Raise e ->
                snd (from_image_max self img o) = self).
Proof.
  destruct (opaque_rgb img) as [|c l] eqn:Eimg.
  { rewrite from_image_max_no_pixel by assumption. simpl. split.
    - split; [discriminate|]. intros (s & m & H & _). congruence.
    - discriminate. }
  assert (Hne : opaque_rgb img <> []) by congruence.
  rewrite from_image_max_pixel by assumption.
  rewrite <- Eimg.
  destruct (shrink img _) as [sample | e0] eqn:Es.
  2:{ simpl. split; [|reflexivity].
      split; [|intros (s & m & _ & H & _); discriminate].
      intros H. inversion H as [He]. subst e0.
      exfalso. revert Es. unfold shrink.
      destruct (size img) as [w h].
      destruct (Z.max w h >? _); [|discriminate].
      unfold fit. destruct (Z.max w h =? 0); [discriminate|].
      destruct (div_overflows _ _); discriminate. }
  destruct (opaque_rgb sample) as [|c' l'] eqn:Esample.
  { simpl. split; [|discriminate].
    split; [discriminate|].
    intros (s & m & _ & H & Hs & _). inversion H; subst. congruence. }
  rewrite <- Esample.
  destruct (do_full_scan self o (opaque_rgb sample) _) eqn:Escan.
  2:{ simpl. split; [|discriminate].
      split; [discriminate|].
      intros (s & m & _ & H & _ & Hscan & _). inversion H; subst. congruence. }
  destruct (too_many _ _) eqn:Emany; simpl.
  - split; [|reflexivity].
    split; [|reflexivity].
    intros _. apply too_many_spec in Emany as [m [Em Hm]].
    exists sample, m. repeat split; try assumption. congruence.
  - split; [|discriminate].
    split; [discriminate|].
    intros (s & m & _ & _ & _ & _ & Em & Hm).
    assert (Ht : too_many (max_unique_error o)
                   (List.length (np_unique_counts (opaque_rgb img))) = true).
    { apply too_many_spec. now exists m. }
    congruence.
Qed.

(** C2, as the code has it.  With the default arguments, when the sample
    of the image (the image itself unless its longer edge exceeds
    [MAX_SAMPLE_DIM]) has an opaque pixel and no more than
    [UNIQUE_THRESHOLD] distinct colours, and the image has no more than
    [FULL_SCAN_PIXEL_LIMIT] opaque pixels, [from_image_max] installs the
    palette of the exact scan: one entry per distinct colour of the
    opaque pixels, with the number of pixels of that colour as its
    count, so that the counts add up to the number of opaque pixels,
    the most frequent colour first. *)
Theorem from_image_max_exact (self : Palette) (img sample : image) :
  shrink img (MAX_SAMPLE_DIM self) = Ok sample ->
  opaque_rgb sample <> [] ->
  Z.of_nat (distinct_count (opaque_rgb sample)) <= UNIQUE_THRESHOLD self ->
  Z.of_nat (List.length (opaque_rgb img)) <= FULL_SCAN_PIXEL_LIMIT self ->
  let after := snd (from_image_max self img default_options) in
  fst (from_image_max self img default_options) = Ok tt
  /\ List.length (colors after) = distinct_count (opaque_rgb img)
  /\ sum_counts (colors after) = Z.of_nat (List.length (opaque_rgb img))
  /\ descending (colors after)
  /\ Forall (fun e => count e = Z.of_nat (occurrences (opaque_rgb img) (rgb e)))
            (colors after)
  /\ (forall c, In c (map rgb (colors after)) <-> In c (opaque_rgb img)).
Proof.
  intros Hs Hsample Hk Htotal.
  destruct (opaque_rgb img) as [|c l] eqn:Eimg.
  { rewrite from_image_max_no_pixel by assumption. simpl.
    repeat split; try constructor; simpl in *; tauto. }
  assert (Hne : opaque_rgb img <> []) by congruence.
  rewrite <- Eimg in *.
  rewrite from_image_max_pixel by assumption.
  simpl max_sample_dim. simpl or_else. rewrite Hs.
  destruct (opaque_rgb sample) as [|c' l'] eqn:Esample; [congruence|].
  rewrite <- Esample in *.
  assert (Hscan : do_full_scan self default_options (opaque_rgb sample)
                    (Z.of_nat (List.length (opaque_rgb img))) = true).
  { unfold do_full_scan. simpl.
    rewrite np_unique_length.
    apply Z.leb_le in Hk, Htotal. now rewrite Hk, Htotal. }
  rewrite Hscan. simpl.
  repeat split.
  - apply exact_palette_length.
  - apply exact_palette_sum.
  - apply py_sort_reverse_descending.
  - apply exact_palette_counts.
  - apply exact_palette_colours.
  - apply exact_palette_colours.
Qed.

(** C10.  When the image has an opaque pixel and its sample has none,
    [from_image_max] empties the container and returns, whatever the
    keyword arguments. *)
Theorem from_image_max_empty_sample
  (self : Palette) (img sample : image) (o : max_options) :
  opaque_rgb img <> [] ->
  shrink img (or_else (max_sample_dim o) (MAX_SAMPLE_DIM self)) = Ok sample ->
  opaque_rgb sample = [] ->
  from_image_max self img o = (Ok tt, set_colors self []).
Proof.
  intros Himg Hs Hsample.
  rewrite from_image_max_pixel by assumption.
  now rewrite Hs, Hsample.
Qed.
End MaxMode.


(* ================================================================== *)
(** * The instances keep the promises *)
(* ================================================================== *)

Lemma rational_floats_laws : FloatLaws rational_floats.
Proof.
  constructor; simpl.
  - intros x y H. apply negb_true_iff in H. apply negb_false_iff.
    apply Qle_bool_iff. apply Qlt_le_weak, Qnot_le_lt.
    intros Hle. apply Qle_bool_iff in Hle. congruence.
  - intros x y z Hxy Hyz. apply negb_false_iff in Hxy, Hyz.
    apply negb_false_iff. apply Qle_bool_iff in Hxy, Hyz.
    apply Qle_bool_iff. eapply Qle_trans; eassumption.
Qed.

Lemma nearest_transparent (new_size : Z * Z) (im : image) :
  all_transparent im -> all_transparent (nearest new_size im).
Proof.
  unfold all_transparent, nearest. intros H.
  destruct new_size as [w' h'], (size im) as [w h]. simpl.
  apply Forall_forall. intros p Hp.
  apply in_flat_map in Hp as [y [_ Hp]].
  apply in_map_iff in Hp as [x [<- _]].
  destruct (nth_in_or_default (Z.to_nat (y * h / h' * w + x * w / w'))
              (data im) transparent) as [Hin | ->]; [|reflexivity].
  rewrite Forall_forall in H. now apply H.
Qed.

Lemma picking_laws : ImagingLaws picking.
Proof.
  constructor; cbn [median_cut lanczos picking first_colors fst snd].
  - intros pixels n Hn. apply Forall_forall. intros i Hi.
    apply in_map_iff in Hi as [c [<- _]]. lia.
  - intros pixels n i Hn Hi.
    apply in_map_iff in Hi as [c [<- _]].
    rewrite length_firstn, length_app, repeat_length. lia.
  - apply nearest_transparent.
Qed.

Example from_image_max_two_by_two :
  from_image_max (F := rational_floats) (I := picking)
    new_palette two_by_two default_options
  = (Ok tt, set_colors new_palette
              [ {| rgb := (255, 0, 0); hex := "#FF0000"; count := 2; enabled := true |};
                {| rgb := (0, 255, 0); hex := "#00FF00"; count := 1; enabled := true |} ]).
Proof. vm_compute. reflexivity. Qed.

Example estimate_unique_stats_two_by_two :
  fst (estimate_unique_stats (F := rational_floats) (I := picking)
         new_palette two_by_two None) = Ok (2, 3, 3).
Proof. vm_compute. reflexivity. Qed.

Lemma from_image_max_exact_witness :
  let after := snd (from_image_max (F := rational_floats) (I := picking)
                      new_palette two_by_two default_options) in
  fst (from_image_max (F := rational_floats) (I := picking)
         new_palette two_by_two default_options) = Ok tt
  /\ List.length (colors after) = distinct_count (opaque_rgb two_by_two)
  /\ sum_counts (colors after) = Z.of_nat (List.length (opaque_rgb two_by_two))
  /\ descending (colors after)
  /\ Forall (fun e => count e = Z.of_nat (occurrences (opaque_rgb two_by_two) (rgb e)))
            (colors after)
  /\ (forall c, In c (map rgb (colors after)) <-> In c (opaque_rgb two_by_two)).
Proof.
  apply (from_image_max_exact (F := rational_floats) (I := picking)
           new_palette two_by_two two_by_two).
  - reflexivity.
  - discriminate.
  - vm_compute. discriminate.
  - vm_compute. discriminate.
Defined.

Lemma from_image_max_empty_sample_witness :
  opaque_rgb faint_row <> []
  /\ from_image_max (F := rational_floats) (I := picking)
       new_palette faint_row (forced 2)
     = (Ok tt, set_colors new_palette []).
Proof.
  split; [discriminate|].
  apply (from_image_max_empty_sample (F := rational_floats) (I := picking)
           new_palette faint_row (nearest (2, 1) faint_row) (forced 2)).
  - discriminate.
  - reflexivity.
  - reflexivity.
Defined.

(** A cap that the colours of the image exceed, and a call that does not
    raise, whatever the libraries do: the image is not eligible for the
    exact scan, so its palette is taken from the sample, where the cap is
    not consulted. *)
Lemma from_image_max_cap_not_consulted :
  max_unique_error capped = Some 1
  /\ Z.of_nat (distinct_count (opaque_rgb two_colors)) > 1
  /\ (forall (F : Floats) (I : Imaging),
         fst (from_image_max new_palette two_colors capped) = Ok tt
         /\ map rgb (colors (snd (from_image_max new_palette two_colors capped)))
            = [(0, 255, 0); (255, 0, 0)]).
Proof.
  split; [reflexivity|]. split; [reflexivity|].
  intros F I. unfold from_image_max, do_full_scan. simpl. split; reflexivity.
Qed.

(** One colour and one opaque pixel, far below both thresholds; the
    reduction to 1200 pixels keeps every other pixel and misses the
    opaque one, so the default call installs nothing. *)
Lemma from_image_max_sample_decides :
  ImagingLaws picking
  /\ distinct_count (opaque_rgb long_row) = 1%nat
  /\ Z.of_nat (distinct_count (opaque_rgb long_row)) <= UNIQUE_THRESHOLD new_palette
  /\ Z.of_nat (List.length (opaque_rgb long_row)) < FULL_SCAN_PIXEL_LIMIT new_palette
  /\ from_image_max (F := rational_floats) (I := picking)
       new_palette long_row default_options
     = (Ok tt, set_colors new_palette []).
Proof.
  split; [exact picking_laws|].
  split; [reflexivity|]. split; [vm_compute; discriminate|].
  split; [reflexivity|]. vm_compute. reflexivity.
Qed.

(* ================================================================== *)
(** * Images without an opaque pixel; the estimator *)
(* ================================================================== *)

Lemma all_transparent_opaque_rgb (im : image) :
  all_transparent im -> opaque_rgb im = [].
Proof.
  unfold all_transparent, opaque_rgb. intros H.
  induction H as [|p l Hp _ IH]; [reflexivity|].
  simpl. unfold opaque at 1. rewrite Hp. exact IH.
Qed.

Lemma float_overflow_positive : 1 < float_overflow.
Proof. unfold Z.lt. vm_compute. reflexivity. Qed.

(** A quotient below 1 is a float. *)
Lemma div_overflows_small (a b : Z) :
  Z.abs a < Z.abs b -> div_overflows a b = false.
Proof.
  intros H. unfold div_overflows. apply Z.leb_gt.
  pose proof float_overflow_positive as Hp.
  generalize dependent float_overflow. intros L HL. nia.
Qed.

Section Shrinking.
Context `{F : Floats} `{I : Imaging}.

Lemma shrink_defined (img : image) (max_dim : Z) :
  0 <= max_dim -> exists sample, shrink img max_dim = Ok sample.
Proof.
  intros Hd. unfold shrink. destruct (size img) as [w h].
  destruct (Z.max w h >? max_dim) eqn:E; [|eauto].
  apply Z.gtb_lt in E. unfold fit.
  destruct (Z.max w h =? 0) eqn:E0; [apply Z.eqb_eq in E0; lia|].
  rewrite div_overflows_small by lia.
  simpl. eauto.
Qed.

Lemma shrink_transparent `{L : !ImagingLaws I} (img sample : image) (max_dim : Z) :
  all_transparent img -> shrink img max_dim = Ok sample -> all_transparent sample.
Proof.
  intros Himg. unfold shrink. destruct (size img) as [w h].
  destruct (Z.max w h >? max_dim).
  - destruct (fit w h max_dim) as [new_size | e]; simpl; [|discriminate].
    intros E. inversion E. now apply lanczos_transparent.
  - intros E. inversion E. subst. exact Himg.
Qed.

(** C6.  For an image all of whose pixels have alpha 0,
    [from_image_quant], for any [n] and with the default or any
    non-negative [max_dim], and [from_image_max], for any keyword
    arguments, return normally with an empty container, and
    [estimate_unique_stats] returns [(0, 0, 0)]. *)
Theorem transparent_image_empty_palette `{L : !ImagingLaws I}
  (self : Palette) (img : image) :
  all_transparent img ->
  (forall n max_dim,
      0 <= or_else max_dim 800 ->
      from_image_quant self img n max_dim = (Ok tt, set_colors self []))
  /\ (forall o, from_image_max self img o = (Ok tt, set_colors self []))
  /\ (forall cap, estimate_unique_stats self img cap = (Ok (0, 0, 0), self)).
Proof.
  intros Himg. repeat split.
  - intros n max_dim Hd. unfold from_image_quant.
    destruct (n <=? 0); [reflexivity|].
    destruct (shrink_defined img _ Hd) as [sample Hs]. rewrite Hs.
    now rewrite (all_transparent_opaque_rgb sample
                   (shrink_transparent _ _ _ Himg Hs)).
  - intros o. apply from_image_max_no_pixel.
    now apply all_transparent_opaque_rgb.
  - intros cap. unfold estimate_unique_stats.
    now rewrite (all_transparent_opaque_rgb img Himg).
Qed.

(** C9.  The triple that [estimate_unique_stats] returns is a function
    of the image and of the cap in force, the argument or else
    [MAX_SAMPLE_DIM]: the colours and the other thresholds of the
    container do not enter it, and the container is returned as it
    was. *)
Theorem estimate_unique_stats_pure
  (self other : Palette) (img : image) (cap cap' : option Z) :
  or_else cap (MAX_SAMPLE_DIM self) = or_else cap' (MAX_SAMPLE_DIM other) ->
  fst (estimate_unique_stats self img cap)
  = fst (estimate_unique_stats other img cap')
  /\ snd (estimate_unique_stats self img cap) = self.
Proof.
  intros E. unfold estimate_unique_stats. rewrite E.
  destruct (Z.of_nat (List.length (opaque_rgb img)) =? 0); [now split|].
  destruct (shrink img _) as [sample | e]; [|now split].
  destruct (opaque_rgb sample); now split.
Qed.
End Shrinking.

Lemma transparent_image_empty_palette_witness :
  (forall n max_dim,
      0 <= or_else max_dim 800 ->
      from_image_quant (F := rational_floats) (I := picking) new_palette blank n max_dim
      = (Ok tt, set_colors new_palette []))
  /\ (forall o, from_image_max (F := rational_floats) (I := picking) new_palette blank o
                = (Ok tt, set_colors new_palette []))
  /\ (forall cap, estimate_unique_stats (F := rational_floats) (I := picking)
                    new_palette blank cap = (Ok (0, 0, 0), new_palette)).
Proof.
  apply (transparent_image_empty_palette (F := rational_floats) (I := picking)
           (L := picking_laws) new_palette blank).
  repeat constructor.
Defined.

Lemma estimate_unique_stats_pure_witness :
  fst (estimate_unique_stats (F := rational_floats) (I := picking)
         new_palette two_by_two None)
  = fst (estimate_unique_stats (F := rational_floats) (I := picking)
           busy_palette two_by_two (Some 1200))
  /\ snd (estimate_unique_stats (F := rational_floats) (I := picking)
            new_palette two_by_two None) = new_palette.
Proof.
  apply (estimate_unique_stats_pure (F := rational_floats) (I := picking)
           new_palette busy_palette two_by_two None (Some 1200)).
  reflexivity.
Defined.

(* ================================================================== *)
(** * Quantised mode: proofs *)
(* ================================================================== *)

Lemma getcolors_In (q : p_image) (c i : Z) :
  In (c, i) (getcolors q) ->
  exists j, i = Z.of_nat j /\ In j (snd q) /\ 0 < c.
Proof.
  unfold getcolors. intros H.
  apply in_flat_map in H as [j [_ H]].
  destruct (count_occ Nat.eq_dec (snd q) j =? 0)%nat eqn:E; [contradiction|].
  destruct H as [H | []]. inversion H; subst.
  apply Nat.eqb_neq in E.
  exists j. repeat split; [|lia].
  apply (count_occ_In Nat.eq_dec). lia.
Qed.

Lemma flat_map_short {A B : Type} (f : A -> list B) (l : list A) :
  (forall x, (List.length (f x) <= 1)%nat) ->
  (List.length (flat_map f l) <= List.length l)%nat.
Proof.
  intros Hf. induction l as [|x l IH]; simpl; [lia|].
  rewrite length_app. specialize (Hf x). lia.
Qed.

Lemma flat_map_nothing {A B : Type} (f : A -> list B) (l : list A) :
  (forall x, In x l -> f x = []) -> flat_map f l = [].
Proof.
  induction l as [|x l IH]; simpl; intros H; [reflexivity|].
  rewrite (H x) by now left. apply IH. intros y Hy. apply H. now right.
Qed.

(** A histogram has no more entries than there are slots in use. *)
Lemma getcolors_length (q : p_image) (n : nat) :
  Forall (fun i => (i < n)%nat) (snd q) ->
  (List.length (getcolors q) <= n)%nat.
Proof.
  intros Hq. unfold getcolors.
  set (f := fun i : nat =>
              let h := count_occ Nat.eq_dec (snd q) i in
              if (h =? 0)%nat then [] else [(Z.of_nat h, Z.of_nat i)]).
  assert (Hf : forall x, (List.length (f x) <= 1)%nat).
  { intros x. unfold f. simpl. destruct (_ =? 0)%nat; simpl; lia. }
  destruct (Nat.le_gt_cases 256 n) as [Hn | Hn].
  - pose proof (flat_map_short f (seq 0 256) Hf) as H.
    rewrite length_seq in H. lia.
  - replace 256%nat with (n + (256 - n))%nat by lia.
    rewrite seq_app, flat_map_app, length_app.
    pose proof (flat_map_short f (seq 0 n) Hf) as H.
    rewrite length_seq in H.
    rewrite (flat_map_nothing f (seq (0 + n) (256 - n))); [simpl; lia|].
    intros i Hi. apply in_seq in Hi. unfold f. simpl.
    rewrite (proj1 (count_occ_not_In Nat.eq_dec (snd q) i)); [reflexivity|].
    intros Hin. rewrite Forall_forall in Hq. specialize (Hq i Hin). lia.
Qed.

Lemma item_defined (palette : list Z) (i : Z) :
  0 <= i -> (Z.to_nat i < List.length palette)%nat ->
  exists v, item palette i = Ok v.
Proof.
  intros Hi Hlen. unfold item.
  destruct (nth_error palette (Z.to_nat i)) as [v|] eqn:E; [eauto|].
  apply nth_error_None in E. lia.
Qed.

Lemma quant_mapping_defined (palette : list Z) (counts : list (Z * Z)) :
  Forall (fun ci => 0 <= snd ci
                    /\ (Z.to_nat (snd ci * 3 + 2) < List.length palette)%nat) counts ->
  exists mapping,
    quant_mapping palette counts = Ok mapping
    /\ map count mapping = map fst counts.
Proof.
  induction 1 as [|[cnt idx] counts [Hidx Hlen] _ [mapping [IH Hmap]]]; simpl.
  - exists []. now split.
  - simpl in Hidx, Hlen.
    destruct (item_defined palette (idx * 3)) as [r Hr]; [lia | lia |].
    destruct (item_defined palette (idx * 3 + 1)) as [g Hg]; [lia | lia |].
    destruct (item_defined palette (idx * 3 + 2)) as [b Hb]; [lia | lia |].
    rewrite Hr, Hg, Hb, IH. simpl.
    eexists. split; [reflexivity|]. simpl. now rewrite Hmap.
Qed.

Lemma quant_mapping_in_sync (palette : list Z) (counts : list (Z * Z))
  (mapping : list entry) :
  quant_mapping palette counts = Ok mapping -> in_sync mapping.
Proof.
  revert mapping. induction counts as [|[cnt idx] counts IH]; simpl; intros mapping.
  - intros E. inversion E. constructor.
  - destruct (item palette (idx * 3)) as [r|]; simpl; [|discriminate].
    destruct (item palette (idx * 3 + 1)) as [g|]; simpl; [|discriminate].
    destruct (item palette (idx * 3 + 2)) as [b|]; simpl; [|discriminate].
    destruct (quant_mapping palette counts) as [m|]; simpl; [|discriminate].
    intros E. inversion E. constructor; [reflexivity|]. now apply IH.
Qed.

Section QuantMode.
Context `{F : Floats} `{I : Imaging}.

(** C3, as the code has it.  For [0 < n <= 256] and the default or any
    non-negative [max_dim], [from_image_quant] returns normally and leaves
    at most [n] entries, each with a count that is not negative, the most
    frequent first. *)
Theorem from_image_quant_bounded `{L : !ImagingLaws I}
  (self : Palette) (img : image) (n : Z) (max_dim : option Z) :
  0 < n <= 256 ->
  0 <= or_else max_dim 800 ->
  let after := snd (from_image_quant self img n max_dim) in
  fst (from_image_quant self img n max_dim) = Ok tt
  /\ Z.of_nat (List.length (colors after)) <= n
  /\ Forall (fun e => 0 <= count e) (colors after)
  /\ descending (colors after).
Proof.
  intros Hn Hd. unfold from_image_quant.
  destruct (n <=? 0) eqn:En; [apply Z.leb_le in En; lia|].
  destruct (shrink_defined img _ Hd) as [sample Hs]. rewrite Hs.
  destruct (opaque_rgb sample) as [|c l] eqn:Epx.
  { simpl. repeat split; try constructor. simpl. lia. }
  rewrite <- Epx. unfold convert_P_adaptive.
  destruct ((n <? - 2 ^ 31) || (2 ^ 31 - 1 <? n)) eqn:Eint.
  { apply orb_true_iff in Eint as [E | E]; apply Z.ltb_lt in E; lia. }
  destruct ((n <? 1) || (256 <? n)) eqn:Eargs.
  { apply orb_true_iff in Eargs as [E | E];
      [apply Z.ltb_lt in E | apply Z.ltb_lt in E]; lia. }
  set (q := median_cut (opaque_rgb sample) n).
  assert (Hslots : Forall (fun i => Z.of_nat i < n) (snd q))
    by (apply median_cut_slots; lia).
  assert (Hcounts : Forall (fun ci => 0 <= snd ci
             /\ (Z.to_nat (snd ci * 3 + 2) < List.length (getpalette q))%nat)
             (getcolors q)).
  { apply Forall_forall. intros [k i] Hin.
    apply getcolors_In in Hin as [j [-> [Hj _]]]. simpl. split; [lia|].
    pose proof (median_cut_palette (opaque_rgb sample) n j ltac:(lia) Hj) as Hp.
    unfold getpalette, q. lia. }
  destruct (quant_mapping_defined _ _ Hcounts) as [mapping [Hm Hcount]].
  rewrite Hm. simpl.
  assert (Hperm := py_sort_perm (fun x y => count_lt y x) mapping).
  fold (py_sort_reverse count_lt mapping) in Hperm.
  repeat split.
  + rewrite <- (Permutation_length Hperm).
    rewrite <- (length_map count), Hcount, length_map.
    assert (Hle : (List.length (getcolors q) <= Z.to_nat n)%nat).
    { apply getcolors_length. eapply Forall_impl; [|exact Hslots].
      simpl. intros; lia. }
    lia.
  + apply py_sort_Forall.
    assert (Hpos : Forall (fun c => 0 <= c) (map count mapping)).
    { rewrite Hcount. apply Forall_forall. intros k Hk.
      apply in_map_iff in Hk as [[k' i] [<- Hin]].
      apply getcolors_In in Hin as [j [_ [_ Hk]]]. simpl. lia. }
    rewrite Forall_forall in *. intros e He. apply Hpos. now apply in_map.
  + apply py_sort_reverse_descending.
Qed.

End QuantMode.

Lemma from_image_quant_bounded_witness :
  let after := snd (from_image_quant (F := rational_floats) (I := picking)
                      new_palette two_by_two 2 None) in
  fst (from_image_quant (F := rational_floats) (I := picking)
         new_palette two_by_two 2 None) = Ok tt
  /\ Z.of_nat (List.length (colors after)) <= 2
  /\ Forall (fun e => 0 <= count e) (colors after)
  /\ descending (colors after).
Proof.
  apply (from_image_quant_bounded (F := rational_floats) (I := picking)
           (L := picking_laws) new_palette two_by_two 2 None);
    simpl; lia.
Defined.

Example from_image_quant_two_by_two :
  colors (snd (from_image_quant (F := rational_floats) (I := picking)
                 new_palette two_by_two 2 None))
  = [ {| rgb := (255, 0, 0); hex := "#FF0000"; count := 2; enabled := true |};
      {| rgb := (0, 255, 0); hex := "#00FF00"; count := 1; enabled := true |} ].
Proof. vm_compute. reflexivity. Qed.

(** 257 colours asked of an image with one opaque pixel: no palette is
    produced, whatever the libraries do. *)
Lemma from_image_quant_257 :
  0 < 257
  /\ (forall (F : Floats) (I : Imaging),
         from_image_quant new_palette one_pixel 257 None
         = (Raise ValueError, new_palette)).
Proof. split; [lia|]. intros F I. reflexivity. Qed.

(* ================================================================== *)
(** * [sort]: proofs *)
(* ================================================================== *)

Lemma string_compare_trans (a b c : string) :
  String.compare a b = Lt -> String.compare b c = Lt -> String.compare a c = Lt.
Proof.
  revert b c. induction a as [|x a IH]; intros [|y b] [|z c]; simpl;
    try congruence.
  unfold Ascii.compare.
  destruct (N.compare_spec (N_of_ascii x) (N_of_ascii y)) as [Exy | Hxy | Hxy];
    destruct (N.compare_spec (N_of_ascii y) (N_of_ascii z)) as [Eyz | Hyz | Hyz];
    destruct (N.compare_spec (N_of_ascii x) (N_of_ascii z)) as [Exz | Hxz | Hxz];
    try congruence; try lia.
  apply IH.
Qed.

Lemma string_ltb_asym (a b : string) :
  String.ltb a b = true -> String.ltb b a = false.
Proof.
  unfold String.ltb. rewrite (String.compare_antisym a b).
  destruct (String.compare b a); simpl; congruence.
Qed.

Lemma string_ltb_negtrans (a b c : string) :
  String.ltb a b = false -> String.ltb b c = false -> String.ltb a c = false.
Proof.
  unfold String.ltb. intros Hab Hbc.
  destruct (String.compare a c) eqn:Eac; try reflexivity.
  exfalso.
  destruct (String.compare a b) eqn:Eab; [| discriminate |].
  - apply String.compare_eq_iff in Eab. subst b. now rewrite Eac in Hbc.
  - assert (Eba : String.compare b a = Lt).
    { rewrite String.compare_antisym, Eab. reflexivity. }
    rewrite (string_compare_trans b a c Eba Eac) in Hbc. discriminate.
Qed.

Lemma filter_split {A : Type} (p : A -> bool) (l : list A) :
  Permutation l (filter (fun x => negb (p x)) l ++ filter p l).
Proof.
  induction l as [|x l IH]; simpl; [constructor|].
  destruct (p x); simpl.
  - now apply Permutation_cons_app.
  - now constructor.
Qed.

(** No key raises on a colour of 8-bit channels, and none in a mode
    that is not known. *)
Lemma div_overflows_byte (v : Z) : is_byte v -> div_overflows v 255 = false.
Proof.
  unfold is_byte. intros H. unfold div_overflows. apply Z.leb_gt.
  pose proof float_overflow_positive as Hp.
  generalize dependent float_overflow. intros L HL. lia.
Qed.

Lemma key_check_byte (mode : string) (c : entry) :
  byte_colour (rgb c) -> key_check mode c = Ok tt.
Proof.
  destruct (rgb c) as [[r g] b] eqn:Ec. intros (Hr & Hg & Hb).
  assert (Hu : unit_check (r, g, b) = Ok tt).
  { unfold unit_check. now rewrite !div_overflows_byte. }
  assert (Hh : hsv_check (r, g, b) = Ok tt).
  { unfold hsv_check. rewrite Hu. simpl bind.
    destruct (Z.min r (Z.min g b) <? 0) eqn:E;
      [|now rewrite andb_false_r].
    apply Z.ltb_lt in E. unfold is_byte in *. lia. }
  unfold key_check. rewrite Ec, Hu, Hh.
  repeat match goal with
         | |- context [(mode =? ?m)%string] => destruct (mode =? m)%string
         end; reflexivity.
Qed.

Lemma key_check_unknown (mode : string) (c : entry) :
  known_mode mode = false -> key_check mode c = Ok tt.
Proof.
  unfold known_mode, key_check. intros H.
  repeat (apply orb_false_iff in H as [H ?]).
  repeat match goal with
         | E : (mode =? _)%string = false |- _ => rewrite E; clear E
         end.
  reflexivity.
Qed.

Lemma keys_check_ok (mode : string) (l : list entry) :
  keys_check mode l = Ok tt
  <-> Forall (fun c => key_check mode c = Ok tt) l.
Proof.
  induction l as [|c l IH]; simpl.
  - split; [constructor | reflexivity].
  - destruct (key_check mode c) as [[]|e] eqn:E; simpl.
    + rewrite IH. split; [now constructor | now inversion 1].
    + split; [discriminate | inversion 1; congruence].
Qed.

Lemma sort_outcome_ok (self : Palette) (mode : string) (disabled_to_top : bool) :
  sort_outcome self mode disabled_to_top = Ok tt
  <-> Forall (fun c => key_check mode c = Ok tt) (colors self).
Proof.
  unfold sort_outcome. destruct disabled_to_top; [|apply keys_check_ok].
  destruct (keys_check mode (filter (fun c => negb (enabled c)) (colors self)))
    as [[]|e] eqn:E; simpl.
  - apply keys_check_ok in E. rewrite keys_check_ok, !Forall_forall in *.
    split.
    + intros H c Hc. destruct (enabled c) eqn:Ec.
      * apply H, filter_In. now split.
      * apply E, filter_In. split; [exact Hc | now rewrite Ec].
    + intros H c Hc. apply filter_In in Hc as [Hc _]. now apply H.
  - split; [discriminate|]. intros H. exfalso.
    assert (E' : keys_check mode (filter (fun c => negb (enabled c)) (colors self))
                 = Ok tt).
    { apply keys_check_ok. rewrite Forall_forall in *. intros c Hc.
      apply filter_In in Hc as [Hc _]. now apply H. }
    congruence.
Qed.

Section SortOutcome.
Context `{F : Floats}.

Lemma sort_ok (self : Palette) (mode : string) (disabled_to_top : bool) :
  sort_outcome self mode disabled_to_top = Ok tt ->
  sort self mode disabled_to_top
  = if disabled_to_top then
      set_colors self
        (py_sort (key_lt mode) (filter (fun c => negb (enabled c)) (colors self))
         ++ py_sort (key_lt mode) (filter (fun c => enabled c) (colors self)))
    else set_colors self (py_sort (key_lt mode) (colors self)).
Proof. intros H. unfold sort. now rewrite H. Qed.

Lemma sort_raised (self : Palette) (mode : string) (disabled_to_top : bool)
  (e : exn) :
  sort_outcome self mode disabled_to_top = Raise e ->
  sort self mode disabled_to_top = self.
Proof. intros H. unfold sort. now rewrite H. Qed.

Lemma sort_perm (self : Palette) (mode : string) (disabled_to_top : bool) :
  Permutation (colors self) (colors (sort self mode disabled_to_top)).
Proof.
  unfold sort. destruct (sort_outcome self mode disabled_to_top);
    [|apply Permutation_refl].
  destruct disabled_to_top; simpl.
  - rewrite (filter_split (fun e => enabled e) (colors self)) at 1.
    apply Permutation_app; apply py_sort_perm.
  - apply py_sort_perm.
Qed.

Lemma hue_of_hsv (c : triple) : hue_of c = fst (fst (hsv c)).
Proof.
  destruct c as [[r g] b]. unfold hue_of, hsv_decomposition, hsv. simpl.
  now destruct (rgb_to_hsv _ _ _) as [[h s] v].
Qed.

Lemma saturation_of_hsv (c : triple) : saturation_of c = snd (fst (hsv c)).
Proof.
  destruct c as [[r g] b]. unfold saturation_of, hsv_decomposition, hsv. simpl.
  now destruct (rgb_to_hsv _ _ _) as [[h s] v].
Qed.

Lemma value_of_hsv (c : triple) : value_of c = snd (hsv c).
Proof.
  destruct c as [[r g] b]. unfold value_of, hsv_decomposition, hsv. simpl.
  now destruct (rgb_to_hsv _ _ _) as [[h s] v].
Qed.

Lemma luminance_of_relative (c : triple) : luminance_of c = relative_luminance c.
Proof. now destruct c as [[r g] b]. Qed.

Lemma lexicographic_compare (a b : string) :
  lexicographic a b <-> String.compare a b <> Gt.
Proof.
  revert b. induction a as [|x a IH]; intros [|y b]; simpl;
    try (split; [discriminate | tauto]); try (split; intros H; congruence).
  unfold Ascii.compare, code.
  destruct (N.compare_spec (N_of_ascii x) (N_of_ascii y)) as [E | E | E].
  - assert (x = y).
    { rewrite <- (ascii_N_embedding x), <- (ascii_N_embedding y). now rewrite E. }
    subst y. rewrite <- IH. split; [intros [H | [_ H]]; [lia | exact H] | auto].
  - split; [discriminate | auto].
  - split; [|congruence]. intros [H | [H _]]; [lia | subst; lia].
Qed.

(** The comparison of the keys in the code is the order that the mode
    asks for. *)
Lemma in_order_key_lt (mode : string) (x y : entry) :
  key_lt mode y x = false -> in_order mode x y.
Proof.
  unfold key_lt, in_order.
  rewrite !hue_of_hsv, !saturation_of_hsv, !value_of_hsv, !luminance_of_relative.
  repeat match goal with
         | |- context [(mode =? ?m)%string] => destruct (mode =? m)%string
         end; unfold float_le; auto.
  - intros H. apply Z.ltb_ge in H. lia.
  - unfold String.ltb. intros H. apply lexicographic_compare.
    rewrite String.compare_antisym.
    destruct (String.compare (hex y) (hex x)); simpl; congruence.
Qed.

Lemma same_rank_same_key (mode : string) (x y : entry) :
  same_rank mode x y = same_key mode x y.
Proof.
  unfold same_rank, same_key, key_lt.
  rewrite !hue_of_hsv, !saturation_of_hsv, !value_of_hsv, !luminance_of_relative.
  repeat match goal with
         | |- context [(mode =? ?m)%string] => destruct (mode =? m)%string
         end; unfold float_eqb; try reflexivity.
  - destruct (Z.eqb_spec (count x) (count y));
      destruct (Z.ltb_spec (- count x) (- count y));
      destruct (Z.ltb_spec (- count y) (- count x)); simpl; try reflexivity; lia.
  - unfold String.ltb. rewrite (String.compare_antisym (hex x) (hex y)).
    destruct (String.eqb_spec (hex x) (hex y)) as [E | E].
    + rewrite E.
      pose proof (String.compare_antisym (hex y) (hex y)) as Ha.
      destruct (String.compare (hex y) (hex y)); simpl in *;
        try discriminate; reflexivity.
    + destruct (String.compare (hex y) (hex x)) eqn:Ec; simpl; try reflexivity.
      apply String.compare_eq_iff in Ec. congruence.
Qed.
End SortOutcome.

Section SortFacts.
Context `{F : Floats} `{L : !FloatLaws F}.

Lemma key_lt_asym (mode : string) (x y : entry) :
  key_lt mode x y = true -> key_lt mode y x = false.
Proof.
  unfold key_lt.
  repeat match goal with
         | |- context [(mode =? ?m)%string] => destruct (mode =? m)%string
         end;
    try (apply fltb_asym); try (apply string_ltb_asym); try congruence.
  intros H. apply Z.ltb_lt in H. apply Z.ltb_ge. lia.
Qed.

Lemma key_lt_negtrans (mode : string) (x y z : entry) :
  key_lt mode x y = false -> key_lt mode y z = false -> key_lt mode x z = false.
Proof.
  unfold key_lt.
  repeat match goal with
         | |- context [(mode =? ?m)%string] => destruct (mode =? m)%string
         end;
    try (apply fltb_negtrans); try (apply string_ltb_negtrans); try congruence.
  intros H1 H2. apply Z.ltb_ge in H1, H2. apply Z.ltb_ge. lia.
Qed.

Lemma py_sort_ordered (mode : string) (l : list entry) :
  ordered mode (py_sort (key_lt mode) l).
Proof.
  exact (py_sort_sorted (key_lt mode) (key_lt_asym mode) (key_lt_negtrans mode) l).
Qed.

Lemma py_sort_same_key (mode : string) (x : entry) (l : list entry) :
  filter (same_key mode x) (py_sort (key_lt mode) l) = filter (same_key mode x) l.
Proof.
  exact (py_sort_stable (key_lt mode) (key_lt_negtrans mode) x l).
Qed.

(** C7.  On a container of 8-bit colours [sort(mode,
    disabled_to_top=True)] returns and leaves the disabled entries, then
    the enabled ones; each of the two parts is in the order that the
    mode asks for, and holds the entries of that kind in the order they
    had before as far as their keys are equal; nothing is lost or
    added. *)
Theorem sort_disabled_to_top (self : Palette) (mode : string) :
  Forall (fun e => byte_colour (rgb e)) (colors self) ->
  sort_outcome self mode true = Ok tt
  /\ exists off on,
      colors (sort self mode true) = off ++ on
      /\ Forall (fun e => enabled e = false) off
      /\ Forall (fun e => enabled e = true) on
      /\ StronglySorted (in_order mode) off
      /\ StronglySorted (in_order mode) on
      /\ (forall x, filter (same_rank mode x) off
                    = filter (same_rank mode x)
                        (filter (fun e => negb (enabled e)) (colors self)))
      /\ (forall x, filter (same_rank mode x) on
                    = filter (same_rank mode x)
                        (filter (fun e => enabled e) (colors self)))
      /\ Permutation (colors self) (colors (sort self mode true)).
Proof.
  intros Hbytes.
  assert (Hout : sort_outcome self mode true = Ok tt).
  { apply sort_outcome_ok. eapply Forall_impl; [|exact Hbytes].
    intros c. apply key_check_byte. }
  split; [exact Hout|].
  exists (py_sort (key_lt mode) (filter (fun e => negb (enabled e)) (colors self))),
         (py_sort (key_lt mode) (filter (fun e => enabled e) (colors self))).
  split; [now rewrite (sort_ok self mode true Hout)|].
  split.
  { apply py_sort_Forall. apply Forall_forall. intros e He.
    apply filter_In in He as [_ He]. now apply negb_true_iff. }
  split.
  { apply py_sort_Forall. apply Forall_forall. intros e He.
    now apply filter_In in He as [_ He]. }
  split.
  { eapply StronglySorted_weaken; [|apply py_sort_ordered].
    intros x y. apply in_order_key_lt. }
  split.
  { eapply StronglySorted_weaken; [|apply py_sort_ordered].
    intros x y. apply in_order_key_lt. }
  split.
  { intros x. rewrite !(filter_ext _ _ (same_rank_same_key mode x)).
    apply py_sort_same_key. }
  split.
  { intros x. rewrite !(filter_ext _ _ (same_rank_same_key mode x)).
    apply py_sort_same_key. }
  apply sort_perm.
Qed.
End SortFacts.

Example sort_mixed_palette :
  map hex (colors (sort (F := rational_floats) mixed_palette "frequency" true))
  = ["#010101"; "#FF0000"; "#090909"; "#00FF00"; "#0000FF"]%string
  /\ map hex (colors (sort (F := rational_floats) mixed_palette "hex" false))
     = ["#0000FF"; "#00FF00"; "#010101"; "#090909"; "#FF0000"]%string
  /\ map hex (colors (sort (F := rational_floats) mixed_palette "luminance" true))
     = ["#010101"; "#090909"; "#FF0000"; "#0000FF"; "#00FF00"]%string.
Proof. vm_compute. repeat split. Qed.

Lemma sort_disabled_to_top_witness :
  sort_outcome mixed_palette "hue" true = Ok tt
  /\ exists off on,
      colors (sort (F := rational_floats) mixed_palette "hue" true) = off ++ on
      /\ Forall (fun e => enabled e = false) off
      /\ Forall (fun e => enabled e = true) on
      /\ StronglySorted (in_order (F := rational_floats) "hue") off
      /\ StronglySorted (in_order (F := rational_floats) "hue") on
      /\ (forall x, filter (same_rank (F := rational_floats) "hue" x) off
                    = filter (same_rank (F := rational_floats) "hue" x)
                        (filter (fun e => negb (enabled e)) (colors mixed_palette)))
      /\ (forall x, filter (same_rank (F := rational_floats) "hue" x) on
                    = filter (same_rank (F := rational_floats) "hue" x)
                        (filter (fun e => enabled e) (colors mixed_palette)))
      /\ Permutation (colors mixed_palette)
                     (colors (sort (F := rational_floats) mixed_palette "hue" true)).
Proof.
  apply (sort_disabled_to_top (F := rational_floats) (L := rational_floats_laws)
           mixed_palette "hue").
  repeat constructor; simpl; unfold is_byte; lia.
Defined.

(* ================================================================== *)
(** * [hex] follows [rgb] *)
(* ================================================================== *)

Lemma toggle_nth_in_sync (i : nat) (l : list entry) :
  in_sync l -> in_sync (toggle_nth i l).
Proof.
  unfold in_sync. intros H. revert i.
  induction H as [|e l He Hl IH]; intros [|i]; simpl; constructor; auto.
Qed.

Lemma pop_nth_in_sync (i : nat) (l : list entry) :
  in_sync l -> in_sync (pop_nth i l).
Proof.
  unfold in_sync. intros H. revert i.
  induction H as [|e l He Hl IH]; intros [|i]; simpl; try constructor; auto.
Qed.

Lemma filter_in_sync (p : entry -> bool) (l : list entry) :
  in_sync l -> in_sync (filter p l).
Proof.
  unfold in_sync. rewrite !Forall_forall. intros H e He.
  apply filter_In in He as [He _]. now apply H.
Qed.

Section Invariant.
Context `{F : Floats} `{I : Imaging}.

Lemma from_image_quant_in_sync
  (self : Palette) (img : image) (n : Z) (max_dim : option Z) :
  in_sync (colors self) ->
  in_sync (colors (snd (from_image_quant self img n max_dim))).
Proof.
  intros Hself. unfold from_image_quant.
  destruct (n <=? 0); [constructor|].
  destruct (shrink img _) as [sample|]; [|exact Hself].
  destruct (opaque_rgb sample) as [|c l]; [constructor|].
  destruct (convert_P_adaptive (c :: l) n) as [q|]; [|exact Hself].
  destruct (quant_mapping (getpalette q) (getcolors q)) as [mapping|] eqn:E;
    [|exact Hself].
  simpl. apply py_sort_Forall. eapply quant_mapping_in_sync. exact E.
Qed.

Lemma from_image_max_in_sync (self : Palette) (img : image) (o : max_options) :
  in_sync (colors self) ->
  in_sync (colors (snd (from_image_max self img o))).
Proof.
  intros Hself. unfold from_image_max.
  destruct (Z.of_nat (List.length (opaque_rgb img)) =? 0); [constructor|].
  destruct (shrink img _) as [sample|]; [|exact Hself].
  destruct (opaque_rgb sample) as [|c l]; [constructor|].
  destruct (do_full_scan self o (c :: l) _).
  - destruct (too_many _ _); [exact Hself|].
    simpl. apply py_sort_Forall, unique_mapping_in_sync.
  - simpl. apply py_sort_Forall, unique_mapping_in_sync.
Qed.

Lemma sort_in_sync (self : Palette) (mode : string) (disabled_to_top : bool) :
  in_sync (colors self) -> in_sync (colors (sort self mode disabled_to_top)).
Proof.
  intros Hself. unfold sort.
  destruct (sort_outcome self mode disabled_to_top); [|exact Hself].
  destruct disabled_to_top; simpl.
  - apply Forall_app. split; apply py_sort_Forall, filter_in_sync, Hself.
  - apply py_sort_Forall, Hself.
Qed.

Lemma perform_in_sync (self : Palette) (op : operation) :
  in_sync (colors self) -> in_sync (colors (perform self op)).
Proof.
  intros Hself. destruct op; simpl.
  - now apply from_image_quant_in_sync.
  - now apply from_image_max_in_sync.
  - now apply sort_in_sync.
  - unfold toggle_enabled.
    destruct ((0 <=? index) && _); [|exact Hself].
    now apply toggle_nth_in_sync.
  - unfold add_color. simpl. apply Forall_app. split; [exact Hself|].
    constructor; [reflexivity | constructor].
  - unfold remove_color.
    destruct ((0 <=? index) && _); [|exact Hself].
    now apply pop_nth_in_sync.
Qed.

(** C8.  From a container in which every [hex] is [rgb_to_hex] of its
    [rgb] (an empty one, for instance), any sequence of calls of
    [from_image_quant], [from_image_max], [sort], [toggle_enabled],
    [add_color] and [remove_color], whether they return or raise, leaves
    a container with the same property after each call. *)
Theorem hex_stays_in_sync (self : Palette) (ops : list operation) :
  in_sync (colors self) ->
  in_sync (colors (fold_left perform ops self)).
Proof.
  revert self. induction ops as [|op ops IH]; intros self Hself; simpl.
  - exact Hself.
  - apply IH. now apply perform_in_sync.
Qed.
End Invariant.

Example session_hex_list :
  hex_list (fold_left (perform (F := rational_floats) (I := picking))
              session new_palette) false
  = ["#00FF00"; "#FFFFFF"]%string.
Proof. vm_compute. reflexivity. Qed.

Example add_color_hex_list :
  hex_list (add_color new_palette (10, 20, 30)) true = ["#0A141E"%string].
Proof. reflexivity. Qed.

Lemma hex_stays_in_sync_witness :
  in_sync (colors (fold_left (perform (F := rational_floats) (I := picking))
                     session new_palette)).
Proof.
  apply (hex_stays_in_sync (F := rational_floats) (I := picking) new_palette session).
  constructor.
Defined.

(* ================================================================== *)
(** * More on the codec *)
(* ================================================================== *)

Lemma substring_length_le (n m : nat) (s : string) :
  (String.length (substring n m s) <= m)%nat.
Proof.
  revert n m. induction s as [|c s IH]; intros [|n] [|m]; simpl; try lia.
  - specialize (IH 0%nat m). lia.
  - apply (IH n 0%nat).
  - apply (IH n (S m)).
Qed.

Lemma int_16_slice_bounded (s : string) (v : Z) :
  (String.length s <= 2)%nat -> int_16 s = Ok v -> in_range v.
Proof.
  intros Hlen Hs.
  assert (H : bounded_result s = true).
  { destruct s as [|a [|b [|c s]]]; simpl in Hlen; try lia.
    - reflexivity.
    - exact (ascii_forall (fun a => bounded_result (String a EmptyString))
               ltac:(vm_compute; reflexivity) a).
    - pose proof (ascii_forall
        (fun a => forallb (fun b => bounded_result (String a (String b EmptyString)))
                          all_ascii)
        ltac:(vm_compute; reflexivity) a) as H.
      cbv beta in H. rewrite forallb_forall in H. apply H.
      unfold all_ascii. apply in_map_iff. exists (nat_of_ascii b).
      split; [apply ascii_nat_embedding|].
      apply in_seq. pose proof (nat_ascii_bounded b). lia. }
  unfold bounded_result in H. rewrite Hs in H.
  apply andb_prop in H as [H1 H2]. unfold in_range. lia.
Qed.

Lemma hex_to_rgb_in_range (s : string) (r g b : Z) :
  hex_to_rgb s = Ok (r, g, b) -> in_range r /\ in_range g /\ in_range b.
Proof.
  unfold hex_to_rgb.
  destruct (int_16 (slice2 0 _)) as [r'|] eqn:Er; simpl; [|discriminate].
  destruct (int_16 (slice2 2 _)) as [g'|] eqn:Eg; simpl; [|discriminate].
  destruct (int_16 (slice2 4 _)) as [b'|] eqn:Eb; simpl; [|discriminate].
  intros E. inversion E; subst.
  repeat split;
    (eapply int_16_slice_bounded; [apply substring_length_le | eassumption]).
Qed.

(** Whatever the string, a channel that [hex_to_rgb] returns lies between
    -15 and 255: a group is two digits, or a sign and one digit. *)
Theorem hex_to_rgb_channels (s : string) (r g b : Z) :
  hex_to_rgb s = Ok (r, g, b) -> in_range r /\ in_range g /\ in_range b.
Proof. apply hex_to_rgb_in_range. Qed.

Lemma hex_to_rgb_channels_witness :
  in_range (-10) /\ in_range 11 /\ in_range 12.
Proof.
  apply (hex_to_rgb_channels " -A0B C"%string (-10) 11 12). reflexivity.
Defined.

(** Six characters that are neither blanks nor, the first, a [#]: they
    are read in three groups of two, whatever follows them. *)
Lemma hex_to_rgb_six (a1 a2 a3 a4 a5 a6 : ascii) (t : string) :
  is_space a1 = false -> is_space a2 = false -> is_space a3 = false ->
  is_space a4 = false -> is_space a5 = false -> is_space a6 = false ->
  Ascii.eqb "#" a1 = false ->
  hex_to_rgb (String a1 (String a2 (String a3 (String a4 (String a5 (String a6 t))))))
  = (r <- int_16 (String a1 (String a2 EmptyString)) ;;
     g <- int_16 (String a3 (String a4 EmptyString)) ;;
     b <- int_16 (String a5 (String a6 EmptyString)) ;;
     Ok (r, g, b)).
Proof.
  intros S1 S2 S3 S4 S5 S6 H1.
  unfold hex_to_rgb, strip.
  rewrite lstrip_by_cons_keep by assumption.
  rewrite !rstrip_by_cons_keep by assumption.
  unfold lstrip_hash. rewrite lstrip_by_cons_keep by assumption.
  destruct (rstrip_by is_space t); reflexivity.
Qed.

Lemma is_hex_plain (a : ascii) :
  is_hex a = true -> is_space a = false /\ Ascii.eqb "#" a = false.
Proof.
  intros Ha.
  pose proof (ascii_forall
    (fun a => implb (is_hex a) (negb (is_space a) && negb (Ascii.eqb "#" a)))
    ltac:(vm_compute; reflexivity) a) as H.
  cbv beta in H. rewrite Ha in H. simpl in H.
  apply andb_prop in H as [H1 H2].
  now rewrite negb_true_iff in H1, H2.
Qed.

(** What follows six hexadecimal digits is not read: [#RRGGBBAA] is read
    as [#RRGGBB]. *)
Theorem hex_to_rgb_ignores_tail (c t : string) :
  String.length c = 6%nat ->
  all_chars is_hex c = true ->
  hex_to_rgb (c ++ t)%string = hex_to_rgb c
  /\ hex_to_rgb (String "#" (c ++ t))%string = hex_to_rgb c.
Proof.
  intros Hlen Hhex.
  destruct c as [|a1 [|a2 [|a3 [|a4 [|a5 [|a6 [|a7 c]]]]]]]; simpl in Hlen; try lia.
  simpl in Hhex.
  repeat match goal with
         | H : _ && _ = true |- _ => apply andb_prop in H as [? H]
         end.
  repeat match goal with
         | H : is_hex ?a = true |- _ => apply is_hex_plain in H as [? ?]
         end.
  assert (E : hex_to_rgb
                (String a1 (String a2 (String a3 (String a4 (String a5 (String a6 t))))))
              = hex_to_rgb
                  (String a1 (String a2 (String a3 (String a4 (String a5
                     (String a6 EmptyString))))))).
  { now rewrite !hex_to_rgb_six by assumption. }
  split.
  - exact E.
  - simpl String.append. rewrite <- E.
    unfold hex_to_rgb at 1, strip.
    rewrite lstrip_by_cons_keep by reflexivity.
    rewrite rstrip_by_cons_keep by reflexivity.
    unfold lstrip_hash.
    change (lstrip_by (Ascii.eqb "#") (String "#" ?s))
      with (lstrip_by (Ascii.eqb "#") s).
    fold lstrip_hash.
    replace (rstrip_by is_space
               (String a1 (String a2 (String a3 (String a4 (String a5 (String a6 t)))))))
      with (strip (String a1 (String a2 (String a3 (String a4 (String a5 (String a6 t)))))))
      by (unfold strip; now rewrite lstrip_by_cons_keep by assumption).
    reflexivity.
Qed.

Lemma hex_to_rgb_ignores_tail_witness :
  hex_to_rgb "0A141E80"%string = hex_to_rgb "0A141E"%string
  /\ hex_to_rgb "#0A141E80"%string = hex_to_rgb "0A141E"%string.
Proof.
  apply (hex_to_rgb_ignores_tail "0A141E"%string "80"%string); reflexivity.
Defined.

Lemma format_02X_in_range (v : Z) :
  in_range v ->
  exists a b,
    format_02X v = String a (String b EmptyString)
    /\ is_space a = false /\ is_space b = false /\ Ascii.eqb "#" a = false
    /\ int_16 (String a (String b EmptyString)) = Ok v.
Proof.
  intros Hv.
  assert (H : reads_back v = true).
  { assert (Hall : forallb reads_back (map (fun x => x - 15) (zrange 271)) = true)
      by (vm_compute; reflexivity).
    rewrite forallb_forall in Hall. apply Hall.
    apply in_map_iff. exists (v + 15). split; [lia|].
    apply zrange_In. unfold in_range in Hv. lia. }
  unfold reads_back in H.
  destruct (format_02X v) as [|a [|b [|c s]]]; try discriminate.
  exists a, b.
  repeat match goal with
         | H : _ && _ = true |- _ => apply andb_prop in H as [H ?]
         end.
  rewrite negb_true_iff in *.
  destruct (int_16 (String a (String b EmptyString))) as [x|]; [|discriminate].
  repeat split; try assumption.
  f_equal. now apply Z.eqb_eq.
Qed.

Lemma hex_round_trip (r g b : Z) :
  in_range r -> in_range g -> in_range b ->
  hex_to_rgb (rgb_to_hex (r, g, b)) = Ok (r, g, b).
Proof.
  intros Hr Hg Hb.
  destruct (format_02X_in_range r Hr) as (a1 & a2 & E1 & S1 & S2 & H1 & I1).
  destruct (format_02X_in_range g Hg) as (a3 & a4 & E2 & S3 & S4 & _ & I2).
  destruct (format_02X_in_range b Hb) as (a5 & a6 & E3 & S5 & S6 & _ & I3).
  unfold rgb_to_hex. rewrite E1, E2, E3. simpl String.append.
  unfold hex_to_rgb at 1, strip.
  rewrite lstrip_by_cons_keep by reflexivity.
  rewrite rstrip_by_cons_keep by reflexivity.
  unfold lstrip_hash.
  change (lstrip_by (Ascii.eqb "#") (String "#" ?s))
    with (lstrip_by (Ascii.eqb "#") s).
  rewrite !rstrip_by_cons_keep by assumption. simpl rstrip_by.
  rewrite lstrip_by_cons_keep by assumption.
  unfold slice2. simpl substring.
  rewrite I1. simpl bind. rewrite I2. simpl bind. rewrite I3. reflexivity.
Qed.

(** The round trip through [rgb_to_hex] and [hex_to_rgb] gives the triple
    back exactly when its channels lie between -15 and 255: a channel
    from -15 to -1 is written as a sign and one digit and read back, a
    channel outside the range takes three characters or more and shifts
    the groups. *)
Theorem hex_round_trip_domain (r g b : Z) :
  hex_to_rgb (rgb_to_hex (r, g, b)) = Ok (r, g, b)
  <-> in_range r /\ in_range g /\ in_range b.
Proof.
  split.
  - apply hex_to_rgb_in_range.
  - intros (Hr & Hg & Hb). now apply hex_round_trip.
Qed.

Lemma hex_round_trip_domain_witness :
  hex_to_rgb (rgb_to_hex (-15, 0, 255)) = Ok (-15, 0, 255).
Proof.
  apply (proj2 (hex_round_trip_domain (-15) 0 255)).
  unfold in_range. lia.
Defined.

Example hex_round_trip_edges :
  rgb_to_hex (-1, 0, 255) = "#-100FF"%string
  /\ hex_to_rgb "#-100FF"%string = Ok (-1, 0, 255)
  /\ rgb_to_hex (256, 0, 0) = "#1000000"%string
  /\ hex_to_rgb "#1000000"%string = Ok (16, 0, 0).
Proof. repeat split. Qed.

(* ================================================================== *)
(** * More on the list operations *)
(* ================================================================== *)

Lemma set_colors_same (self : Palette) : set_colors self (colors self) = self.
Proof. now destruct self. Qed.

Lemma set_colors_twice (self : Palette) (l l' : list entry) :
  set_colors (set_colors self l) l' = set_colors self l'.
Proof. reflexivity. Qed.

Lemma toggle_nth_length (i : nat) (l : list entry) :
  List.length (toggle_nth i l) = List.length l.
Proof.
  revert i. induction l as [|e l IH]; intros [|i]; simpl; auto.
Qed.

Lemma toggle_nth_twice (i : nat) (l : list entry) :
  toggle_nth i (toggle_nth i l) = l.
Proof.
  revert i. induction l as [|e l IH]; intros [|i]; simpl; try reflexivity.
  - destruct e as [c h k b]. unfold set_enabled. simpl.
    now rewrite negb_involutive.
  - now rewrite IH.
Qed.

(** Toggling an entry twice gives the container back, whatever the
    index. *)
Theorem toggle_enabled_twice (self : Palette) (index : Z) :
  toggle_enabled (toggle_enabled self index) index = self.
Proof.
  unfold toggle_enabled.
  destruct ((0 <=? index) && (index <? Z.of_nat (List.length (colors self))))
    eqn:E.
  - simpl colors. rewrite toggle_nth_length, E, set_colors_twice.
    rewrite toggle_nth_twice. apply set_colors_same.
  - now rewrite E.
Qed.

Lemma toggle_nth_fields (i : nat) (l : list entry) :
  map rgb (toggle_nth i l) = map rgb l
  /\ map hex (toggle_nth i l) = map hex l
  /\ map count (toggle_nth i l) = map count l.
Proof.
  revert i. induction l as [|e l IH]; intros [|i]; simpl; auto.
  destruct (IH i) as (H1 & H2 & H3). now rewrite H1, H2, H3.
Qed.

Lemma toggle_nth_flags (i j : nat) (l : list entry) :
  nth_error (map enabled (toggle_nth i l)) j
  = if (i =? j)%nat then option_map negb (nth_error (map enabled l) j)
    else nth_error (map enabled l) j.
Proof.
  revert i j. induction l as [|e l IH]; intros [|i] [|j]; simpl;
    try reflexivity.
  - now destruct (i =? j)%nat.
  - apply IH.
Qed.

(** [toggle_enabled(index)] leaves the colours, the hex strings and the
    counts as they are and keeps the order; for an index of the list it
    inverts the flag of that entry and of no other; for any other index,
    a negative one included, it does nothing. *)
Theorem toggle_enabled_effect (self : Palette) (index : Z) :
  map rgb (colors (toggle_enabled self index)) = map rgb (colors self)
  /\ map hex (colors (toggle_enabled self index)) = map hex (colors self)
  /\ map count (colors (toggle_enabled self index)) = map count (colors self)
  /\ (0 <= index < Z.of_nat (List.length (colors self)) ->
      forall j,
        nth_error (map enabled (colors (toggle_enabled self index))) j
        = if (Z.to_nat index =? j)%nat
          then option_map negb (nth_error (map enabled (colors self)) j)
          else nth_error (map enabled (colors self)) j)
  /\ (~ 0 <= index < Z.of_nat (List.length (colors self)) ->
      toggle_enabled self index = self).
Proof.
  unfold toggle_enabled.
  destruct ((0 <=? index) && (index <? Z.of_nat (List.length (colors self))))
    eqn:E.
  - simpl colors.
    destruct (toggle_nth_fields (Z.to_nat index) (colors self)) as (H1 & H2 & H3).
    repeat split; try assumption.
    + intros _ j. apply toggle_nth_flags.
    + intros H. exfalso. apply H.
      apply andb_prop in E as [E1 E2].
      apply Z.leb_le in E1. apply Z.ltb_lt in E2. lia.
  - repeat split; try reflexivity.
    intros H. exfalso.
    apply andb_false_iff in E as [E | E];
      [apply Z.leb_gt in E | apply Z.ltb_ge in E]; lia.
Qed.

Lemma toggle_enabled_effect_witness :
  map enabled (colors (toggle_enabled mixed_palette 1))
  = [true; true; true; false; false]
  /\ toggle_enabled mixed_palette (-1) = mixed_palette
  /\ toggle_enabled mixed_palette 5 = mixed_palette.
Proof.
  destruct (toggle_enabled_effect mixed_palette 1) as (_ & _ & _ & H & _).
  destruct (toggle_enabled_effect mixed_palette (-1)) as (_ & _ & _ & _ & H1).
  destruct (toggle_enabled_effect mixed_palette 5) as (_ & _ & _ & _ & H5).
  split; [reflexivity|].
  split; [apply H1 | apply H5]; simpl; lia.
Defined.

Lemma pop_nth_split (i : nat) (l : list entry) :
  pop_nth i l = firstn i l ++ skipn (S i) l.
Proof.
  revert i. induction l as [|e l IH]; intros [|i]; simpl; try reflexivity.
  now rewrite IH.
Qed.

(** [remove_color(index)] takes out the entry at an index of the list and
    keeps the others in their order; for any other index, a negative one
    included (it is not counted from the end), it does nothing. *)
Theorem remove_color_effect (self : Palette) (index : Z) :
  (0 <= index < Z.of_nat (List.length (colors self)) ->
   colors (remove_color self index)
   = firstn (Z.to_nat index) (colors self)
     ++ skipn (S (Z.to_nat index)) (colors self)
   /\ S (List.length (colors (remove_color self index)))
      = List.length (colors self))
  /\ (~ 0 <= index < Z.of_nat (List.length (colors self)) ->
      remove_color self index = self).
Proof.
  unfold remove_color.
  destruct ((0 <=? index) && (index <? Z.of_nat (List.length (colors self))))
    eqn:E.
  - apply andb_prop in E as [E1 E2].
    apply Z.leb_le in E1. apply Z.ltb_lt in E2.
    split; [|intros H; exfalso; apply H; lia].
    intros _. simpl colors. rewrite pop_nth_split. split; [reflexivity|].
    rewrite length_app, length_firstn, length_skipn. lia.
  - split; [|reflexivity].
    intros H. exfalso.
    apply andb_false_iff in E as [E | E];
      [apply Z.leb_gt in E | apply Z.ltb_ge in E]; lia.
Qed.

Lemma remove_color_effect_witness :
  map hex (colors (remove_color mixed_palette 1))
  = ["#0000FF"; "#00FF00"; "#090909"; "#010101"]%string
  /\ remove_color mixed_palette (-1) = mixed_palette.
Proof.
  destruct (remove_color_effect mixed_palette 1) as [H _].
  destruct (remove_color_effect mixed_palette (-1)) as [_ H'].
  split.
  - destruct H as [H _]; [simpl; lia|]. rewrite H. reflexivity.
  - apply H'. simpl. lia.
Defined.

Lemma pop_nth_last (l : list entry) (x : entry) :
  pop_nth (List.length l) (l ++ [x]) = l.
Proof. induction l as [|e l IH]; simpl; [reflexivity | now rewrite IH]. Qed.

(** [add_color] appends one entry, enabled, with count 0 and the hex
    string of the colour, also when the colour is there already; taking
    out the last entry afterwards gives the container back. *)
Theorem add_color_then_remove (self : Palette) (c : triple) :
  colors (add_color self c)
  = colors self ++ [ {| rgb := c; hex := rgb_to_hex c; count := 0; enabled := true |} ]
  /\ remove_color (add_color self c) (Z.of_nat (List.length (colors self))) = self.
Proof.
  split; [reflexivity|].
  unfold remove_color, add_color. simpl colors.
  rewrite length_app. simpl List.length.
  assert (E : (0 <=? Z.of_nat (List.length (colors self)))
              && (Z.of_nat (List.length (colors self))
                  <? Z.of_nat (List.length (colors self) + 1)) = true).
  { apply andb_true_intro. split; [apply Z.leb_le | apply Z.ltb_lt]; lia. }
  rewrite E, Nat2Z.id, pop_nth_last, set_colors_twice.
  apply set_colors_same.
Qed.

(** What [hex_list] gives is read back by [hex_to_rgb] as the colours of
    the entries listed, in their order, when [hex] follows [rgb] and the
    channels are 8-bit. *)
Theorem hex_list_reads_back (self : Palette) (enabled_only : bool) :
  in_sync (colors self) ->
  Forall (fun e => byte_colour (rgb e)) (colors self) ->
  map hex_to_rgb (hex_list self enabled_only)
  = map (fun e => Ok (rgb e))
        (filter (fun c => enabled c || negb enabled_only) (colors self)).
Proof.
  unfold hex_list, in_sync. intros Hsync Hbyte.
  induction (colors self) as [|e l IH]; [reflexivity|].
  inversion Hsync as [|? ? He Hl]; inversion Hbyte as [|? ? Be Bl]; subst.
  simpl. destruct (enabled e || negb enabled_only); simpl; [|now apply IH].
  rewrite IH by assumption. f_equal.
  rewrite He. destruct (rgb e) as [[r g] b]. simpl in Be.
  unfold is_byte in Be. apply hex_round_trip; unfold in_range; lia.
Qed.

Lemma hex_list_reads_back_witness :
  map hex_to_rgb (hex_list mixed_palette true)
  = [Ok (0, 0, 255); Ok (0, 255, 0)].
Proof.
  apply (hex_list_reads_back mixed_palette true).
  - repeat constructor.
  - repeat constructor; simpl; unfold is_byte; lia.
Defined.

Lemma disabled_indices_from (k : nat) (l : list entry) :
  map fst
    (filter (fun ic => negb (enabled (snd ic)))
       (combine (map Z.of_nat (seq k (List.length l))) l))
  = map Z.of_nat (disabled_from k l).
Proof.
  revert k. induction l as [|e l IH]; intros k; simpl; [reflexivity|].
  destruct (enabled e); simpl; now rewrite IH.
Qed.

Lemma pop_nth_beyond (i : nat) (l : list entry) :
  (List.length l <= i)%nat -> pop_nth i l = l.
Proof.
  revert i. induction l as [|e l IH]; intros [|i]; simpl; intros H;
    try reflexivity; try lia.
  rewrite IH; [reflexivity | lia].
Qed.

Lemma remove_color_nat (self : Palette) (i : nat) :
  remove_color self (Z.of_nat i) = set_colors self (pop_nth i (colors self)).
Proof.
  unfold remove_color.
  destruct ((0 <=? Z.of_nat i)
            && (Z.of_nat i <? Z.of_nat (List.length (colors self)))) eqn:E.
  - now rewrite Nat2Z.id.
  - rewrite pop_nth_beyond; [now rewrite set_colors_same|].
    apply andb_false_iff in E as [E | E];
      [apply Z.leb_gt in E | apply Z.ltb_ge in E]; lia.
Qed.

Lemma fold_remove_color (self : Palette) (idxs : list nat) :
  fold_left remove_color (map Z.of_nat idxs) self
  = set_colors self (fold_left (fun l i => pop_nth i l) idxs (colors self)).
Proof.
  revert self. induction idxs as [|i idxs IH]; intros self; simpl.
  - now rewrite set_colors_same.
  - rewrite remove_color_nat, IH. reflexivity.
Qed.

Lemma pop_nth_middle (pre l : list entry) (e : entry) :
  pop_nth (List.length pre) (pre ++ e :: l) = pre ++ l.
Proof. induction pre as [|x pre IH]; simpl; [reflexivity | now rewrite IH]. Qed.

Lemma pop_disabled_from (pre l : list entry) :
  fold_left (fun l i => pop_nth i l) (rev (disabled_from (List.length pre) l))
            (pre ++ l)
  = pre ++ filter (fun c => enabled c) l.
Proof.
  revert pre. induction l as [|e l IH]; intros pre; [reflexivity|].
  simpl disabled_from. rewrite rev_app_distr, fold_left_app.
  specialize (IH (pre ++ [e])).
  rewrite length_app, Nat.add_1_r, <- app_assoc in IH. simpl in IH.
  rewrite IH. simpl filter.
  destruct (enabled e); simpl.
  - now rewrite <- app_assoc.
  - rewrite <- app_assoc. simpl. apply pop_nth_middle.
Qed.

(** [remove_selected] of the application leaves exactly the enabled
    entries, in their order: going through the disabled indices from the
    largest down, each [remove_color] finds its entry where it was. *)
Theorem remove_selected_keeps_enabled (self : Palette) :
  remove_selected self
  = set_colors self (filter (fun c => enabled c) (colors self)).
Proof.
  unfold remove_selected, disabled_indices.
  rewrite (disabled_indices_from 0 (colors self)).
  pose proof (pop_disabled_from [] (colors self)) as H. simpl in H.
  destruct (disabled_from 0 (colors self)) as [|i idxs] eqn:E.
  - simpl in *. now rewrite <- H, set_colors_same.
  - rewrite <- E in *. clear E.
    destruct (map Z.of_nat (disabled_from 0 (colors self))) eqn:E'.
    + rewrite <- H.
      destruct (disabled_from 0 (colors self)); [|discriminate].
      simpl. now rewrite set_colors_same.
    + rewrite <- E', <- map_rev, fold_remove_color, H. reflexivity.
Qed.

Example remove_selected_mixed :
  map hex (colors (remove_selected mixed_palette)) = ["#0000FF"; "#00FF00"]%string.
Proof. reflexivity. Qed.

(* ================================================================== *)
(** * More on [sort] *)
(* ================================================================== *)

Lemma py_sort_of_sorted {A : Type} (lt : A -> A -> bool) (l : list A) :
  StronglySorted (not_above lt) l -> py_sort lt l = l.
Proof.
  induction 1 as [|x l Hl IH Hall]; [reflexivity|].
  simpl. rewrite IH. destruct l as [|y l']; [reflexivity|].
  inversion Hall as [|? ? Hy _]; subst. unfold not_above in Hy.
  simpl. now rewrite Hy.
Qed.

Lemma filter_all {A : Type} (p : A -> bool) (l : list A) :
  Forall (fun x => p x = true) l -> filter p l = l.
Proof.
  induction 1 as [|x l Hx _ IH]; simpl; [reflexivity|]. now rewrite Hx, IH.
Qed.

Lemma filter_none {A : Type} (p : A -> bool) (l : list A) :
  Forall (fun x => p x = false) l -> filter p l = [].
Proof.
  induction 1 as [|x l Hx _ IH]; simpl; [reflexivity|]. now rewrite Hx.
Qed.

Lemma filter_filtered {A : Type} (p : A -> bool) (l : list A) :
  Forall (fun x => p x = true) (filter p l).
Proof.
  apply Forall_forall. intros x Hx. now apply filter_In in Hx.
Qed.

Section MoreSort.
Context `{F : Floats} `{L : !FloatLaws F}.

(** On a container of 8-bit colours [sort(mode)] without
    [disabled_to_top] returns and puts the whole list in the order that
    the mode asks for, keeps the earlier of two entries with equal keys
    first, and neither loses nor adds an entry. *)
Theorem sort_whole_list (self : Palette) (mode : string) :
  Forall (fun e => byte_colour (rgb e)) (colors self) ->
  sort_outcome self mode false = Ok tt
  /\ StronglySorted (in_order mode) (colors (sort self mode false))
  /\ (forall x, filter (same_rank mode x) (colors (sort self mode false))
                = filter (same_rank mode x) (colors self))
  /\ Permutation (colors self) (colors (sort self mode false)).
Proof.
  intros Hbytes.
  assert (Hout : sort_outcome self mode false = Ok tt).
  { apply sort_outcome_ok. eapply Forall_impl; [|exact Hbytes].
    intros c. apply key_check_byte. }
  split; [exact Hout|].
  rewrite (sort_ok self mode false Hout). simpl colors.
  split.
  { eapply StronglySorted_weaken; [|apply py_sort_ordered].
    intros x y. apply in_order_key_lt. }
  split.
  { intros x. rewrite !(filter_ext _ _ (same_rank_same_key mode x)).
    apply py_sort_same_key. }
  apply py_sort_perm.
Qed.

(** Sorting again with the same arguments changes nothing. *)
Theorem sort_twice (self : Palette) (mode : string) (disabled_to_top : bool) :
  sort (sort self mode disabled_to_top) mode disabled_to_top
  = sort self mode disabled_to_top.
Proof.
  destruct (sort_outcome self mode disabled_to_top) as [[]|e] eqn:Hout.
  2:{ rewrite (sort_raised self mode disabled_to_top e Hout).
      exact (sort_raised self mode disabled_to_top e Hout). }
  assert (Hout' : sort_outcome (sort self mode disabled_to_top) mode disabled_to_top
                  = Ok tt).
  { apply sort_outcome_ok. apply sort_outcome_ok in Hout.
    rewrite Forall_forall in *. intros c Hc. apply Hout.
    eapply Permutation_in; [|exact Hc].
    apply Permutation_sym, sort_perm. }
  rewrite (sort_ok _ mode disabled_to_top Hout').
  rewrite (sort_ok self mode disabled_to_top Hout).
  destruct disabled_to_top; simpl colors; rewrite set_colors_twice;
    f_equal.
  - set (off := py_sort (key_lt mode)
                  (filter (fun c => negb (enabled c)) (colors self))).
    set (on := py_sort (key_lt mode)
                 (filter (fun c => enabled c) (colors self))).
    assert (Hoff : Forall (fun c => negb (enabled c) = true) off)
      by apply py_sort_Forall, filter_filtered.
    assert (Hon : Forall (fun c => enabled c = true) on)
      by apply py_sort_Forall, (filter_filtered (fun c => enabled c)).
    assert (E1 : filter (fun c => negb (enabled c)) (off ++ on) = off).
    { rewrite filter_app, (filter_all _ off Hoff), filter_none;
        [apply app_nil_r|].
      eapply Forall_impl; [|exact Hon]. intros c Hc. simpl in Hc.
      now rewrite Hc. }
    assert (E2 : filter (fun c => enabled c) (off ++ on) = on).
    { rewrite filter_app, filter_none.
      - simpl. exact (filter_all (fun c => enabled c) on Hon).
      - eapply Forall_impl; [|exact Hoff]. intros c Hc.
        now apply negb_true_iff in Hc. }
    rewrite E1, E2. unfold off, on.
    f_equal; apply py_sort_of_sorted, py_sort_ordered.
  - apply py_sort_of_sorted, py_sort_ordered.
Qed.
End MoreSort.

Lemma sort_whole_list_witness :
  sort_outcome mixed_palette "luminance" false = Ok tt
  /\ StronglySorted (in_order (F := rational_floats) "luminance")
       (colors (sort (F := rational_floats) mixed_palette "luminance" false))
  /\ (forall x,
         filter (same_rank (F := rational_floats) "luminance" x)
           (colors (sort (F := rational_floats) mixed_palette "luminance" false))
         = filter (same_rank (F := rational_floats) "luminance" x)
             (colors mixed_palette))
  /\ Permutation (colors mixed_palette)
       (colors (sort (F := rational_floats) mixed_palette "luminance" false)).
Proof.
  apply (sort_whole_list (F := rational_floats) (L := rational_floats_laws)
           mixed_palette "luminance").
  repeat constructor; simpl; unfold is_byte; lia.
Defined.

Lemma sort_twice_witness :
  sort (F := rational_floats)
    (sort (F := rational_floats) mixed_palette "value" true) "value" true
  = sort (F := rational_floats) mixed_palette "value" true.
Proof.
  exact (sort_twice (F := rational_floats) (L := rational_floats_laws)
           mixed_palette "value" true).
Defined.

Section UnknownMode.
Context `{F : Floats}.

Lemma key_lt_unknown (mode : string) (x y : entry) :
  known_mode mode = false -> key_lt mode x y = false.
Proof.
  unfold known_mode, key_lt. intros H.
  repeat (apply orb_false_iff in H as [H ?]).
  repeat match goal with
         | E : (mode =? _)%string = false |- _ => rewrite E; clear E
         end.
  reflexivity.
Qed.

Lemma py_sort_unknown (mode : string) (l : list entry) :
  known_mode mode = false -> py_sort (key_lt mode) l = l.
Proof.
  intros H. induction l as [|x l IH]; [reflexivity|].
  simpl. rewrite IH. destruct l as [|y l']; [reflexivity|].
  simpl. now rewrite key_lt_unknown.
Qed.

(** A mode that is none of the six names orders nothing: the container is
    left as it is, or, with [disabled_to_top], its disabled entries are
    moved in front of the enabled ones, each group in the order it had. *)
Theorem sort_unknown_mode (self : Palette) (mode : string) :
  known_mode mode = false ->
  sort self mode false = self
  /\ sort self mode true
     = set_colors self
         (filter (fun c => negb (enabled c)) (colors self)
          ++ filter (fun c => enabled c) (colors self)).
Proof.
  intros H.
  assert (Hout : forall d, sort_outcome self mode d = Ok tt).
  { intros d. apply sort_outcome_ok, Forall_forall. intros c _.
    now apply key_check_unknown. }
  rewrite !sort_ok by apply Hout. rewrite !py_sort_unknown by assumption.
  split; [apply set_colors_same | reflexivity].
Qed.

(** A container whose counts are in descending order, as a builder leaves
    it, is not changed by [sort('frequency')]. *)
Theorem sort_frequency_of_descending (self : Palette) :
  descending (colors self) -> sort self "frequency" false = self.
Proof.
  intros H.
  assert (Hout : sort_outcome self "frequency" false = Ok tt).
  { apply sort_outcome_ok, Forall_forall. now intros c _. }
  rewrite (sort_ok self "frequency" false Hout).
  rewrite py_sort_of_sorted; [apply set_colors_same|].
  eapply StronglySorted_weaken; [|exact H].
  intros x y Hxy. cbv beta in Hxy.
  unfold not_above, key_lt. simpl. apply Z.ltb_ge. lia.
Qed.
End UnknownMode.

(** Outside the 8-bit colours a key can raise: the hue of [(0, -1, 0)]
    divides by zero, the list stays as it was, and the other modes still
    sort it. *)
Example sort_odd_palette :
  sort_outcome odd_palette "hue" false = Raise ZeroDivisionError
  /\ sort (F := rational_floats) odd_palette "hue" false = odd_palette
  /\ sort_outcome odd_palette "luminance" false = Ok tt
  /\ map hex (colors (sort (F := rational_floats) odd_palette "hex" false))
     = ["#00-100"; "#010101"; "#090909"]%string.
Proof. vm_compute. repeat split. Qed.

Lemma sort_unknown_mode_witness :
  sort (F := rational_floats) mixed_palette "Hue" false = mixed_palette
  /\ map hex (colors (sort (F := rational_floats) mixed_palette "Hue" true))
     = ["#FF0000"; "#090909"; "#010101"; "#0000FF"; "#00FF00"]%string.
Proof.
  destruct (sort_unknown_mode (F := rational_floats) mixed_palette "Hue"
              ltac:(reflexivity)) as [H1 H2].
  split; [exact H1 | rewrite H2; reflexivity].
Defined.

Lemma sort_frequency_of_descending_witness :
  sort (F := rational_floats)
    (snd (from_image_max (F := rational_floats) (I := picking)
            new_palette two_by_two default_options)) "frequency" false
  = snd (from_image_max (F := rational_floats) (I := picking)
           new_palette two_by_two default_options).
Proof.
  apply (sort_frequency_of_descending (F := rational_floats)).
  apply py_sort_reverse_descending.
Defined.

(* ================================================================== *)
(** * More on the builders and the estimator *)
(* ================================================================== *)

Lemma tally_positive (c : triple) (t : list (triple * nat)) :
  Forall (fun ck => (1 <= snd ck)%nat) t ->
  Forall (fun ck => (1 <= snd ck)%nat) (tally c t).
Proof.
  induction 1 as [|[d k] t Hd Ht IH]; simpl.
  - repeat constructor.
  - destruct (triple_compare c d); constructor; simpl in *;
      try assumption; try lia.
    constructor; assumption.
Qed.

Lemma np_unique_counts_positive (pixels : list triple) :
  Forall (fun ck => (1 <= snd ck)%nat) (np_unique_counts pixels).
Proof.
  induction pixels as [|c pixels IH]; simpl; [constructor|].
  now apply tally_positive.
Qed.

Lemma scan_palette_entries (pixels : list triple) :
  Forall (fun e => enabled e = true) (scan_palette pixels)
  /\ Forall (fun e => 1 <= count e) (scan_palette pixels)
  /\ NoDup (map rgb (scan_palette pixels))
  /\ descending (scan_palette pixels).
Proof.
  unfold scan_palette. repeat split.
  - apply py_sort_Forall. apply Forall_forall. intros e He.
    apply in_map_iff in He as [ck [<- _]]. reflexivity.
  - apply py_sort_Forall. apply Forall_forall. intros e He.
    apply in_map_iff in He as [ck [<- Hin]]. simpl.
    pose proof (np_unique_counts_positive pixels) as H.
    rewrite Forall_forall in H. specialize (H ck Hin). lia.
  - eapply Permutation_NoDup.
    + apply Permutation_map. apply py_sort_perm.
    + rewrite unique_mapping_rgb.
      apply key_sorted_NoDup, np_unique_counts_sorted.
  - apply py_sort_reverse_descending.
Qed.

Lemma quant_mapping_entries (palette : list Z) (counts : list (Z * Z))
  (mapping : list entry) :
  quant_mapping palette counts = Ok mapping ->
  map count mapping = map fst counts
  /\ Forall (fun e => enabled e = true) mapping.
Proof.
  revert mapping. induction counts as [|[cnt idx] counts IH]; simpl; intros mapping.
  - intros E. inversion E. split; [reflexivity | constructor].
  - destruct (item palette (idx * 3)) as [r|]; simpl; [|discriminate].
    destruct (item palette (idx * 3 + 1)) as [g|]; simpl; [|discriminate].
    destruct (item palette (idx * 3 + 2)) as [b|]; simpl; [|discriminate].
    destruct (quant_mapping palette counts) as [m|]; simpl; [|discriminate].
    intros E. inversion E. destruct (IH m eq_refl) as [H1 H2].
    split; [simpl; now rewrite H1 | now constructor].
Qed.

Lemma getcolors_at_most_256 (q : p_image) :
  (List.length (getcolors q) <= 256)%nat.
Proof.
  unfold getcolors.
  match goal with
  | |- (List.length (flat_map ?f _) <= _)%nat =>
      pose proof (flat_map_short f (seq 0 256)) as H
  end.
  rewrite length_seq in H. apply H.
  intros x. simpl. destruct (_ =? 0)%nat; simpl; lia.
Qed.

Section MoreBuilders.
Context `{F : Floats} `{I : Imaging}.

Lemma from_image_max_outcome (self : Palette) (img : image) (o : max_options) :
  fst (from_image_max self img o) = Ok tt ->
  colors (snd (from_image_max self img o)) = []
  \/ exists pixels, colors (snd (from_image_max self img o)) = scan_palette pixels.
Proof.
  unfold from_image_max.
  destruct (Z.of_nat (List.length (opaque_rgb img)) =? 0); [now left|].
  destruct (shrink img _) as [sample|]; [|discriminate].
  destruct (opaque_rgb sample) as [|c l]; [now left|].
  destruct (do_full_scan self o (c :: l) _).
  - destruct (too_many _ _); [discriminate|].
    intros _. right. now exists (opaque_rgb img).
  - intros _. right. now exists (c :: l).
Qed.

(** Whenever [from_image_max] returns, by the exact scan or from the
    sample, the entries it leaves are all enabled, have counts of at
    least 1 and pairwise different colours, and are in descending order
    of count. *)
Theorem from_image_max_installs (self : Palette) (img : image) (o : max_options) :
  fst (from_image_max self img o) = Ok tt ->
  let l := colors (snd (from_image_max self img o)) in
  Forall (fun e => enabled e = true) l
  /\ Forall (fun e => 1 <= count e) l
  /\ NoDup (map rgb l)
  /\ descending l.
Proof.
  intros H. destruct (from_image_max_outcome self img o H) as [E | [pixels E]];
    simpl; rewrite E.
  - repeat split; constructor.
  - apply scan_palette_entries.
Qed.

(** Whenever [from_image_quant] returns, for any [n] and whatever the
    quantiser does, it leaves at most 256 entries, all enabled, with
    counts of at least 1, in descending order of count. *)
Theorem from_image_quant_installs
  (self : Palette) (img : image) (n : Z) (max_dim : option Z) :
  fst (from_image_quant self img n max_dim) = Ok tt ->
  let l := colors (snd (from_image_quant self img n max_dim)) in
  (List.length l <= 256)%nat
  /\ Forall (fun e => enabled e = true) l
  /\ Forall (fun e => 1 <= count e) l
  /\ descending l.
Proof.
  unfold from_image_quant.
  destruct (n <=? 0).
  { intros _. simpl. repeat split; try constructor. lia. }
  destruct (shrink img _) as [sample|]; [|discriminate].
  destruct (opaque_rgb sample) as [|c l].
  { intros _. simpl. repeat split; try constructor. lia. }
  destruct (convert_P_adaptive (c :: l) n) as [q|]; [|discriminate].
  destruct (quant_mapping (getpalette q) (getcolors q)) as [mapping|] eqn:E;
    [|discriminate].
  intros _. simpl.
  destruct (quant_mapping_entries _ _ _ E) as [Hcount Hon].
  repeat split.
  - unfold py_sort_reverse. rewrite py_sort_length.
    rewrite <- (length_map count), Hcount, length_map.
    apply getcolors_at_most_256.
  - now apply py_sort_Forall.
  - apply py_sort_Forall.
    assert (Hpos : Forall (fun k => 1 <= k) (map count mapping)).
    { rewrite Hcount. apply Forall_forall. intros k Hk.
      apply in_map_iff in Hk as [[k' i] [<- Hin]].
      apply getcolors_In in Hin as [j [_ [_ Hk]]]. simpl. lia. }
    rewrite Forall_forall in *. intros e He. apply Hpos. now apply in_map.
  - apply py_sort_reverse_descending.
Qed.

(** For an image whose longer edge does not exceed the sample cap, and
    without [max_unique_error], [from_image_max] installs the palette of
    the exact scan whatever the thresholds and [force_full_scan] are:
    the sample is the image, so both paths count the same pixels. *)
Theorem from_image_max_small_image (self : Palette) (img : image) (o : max_options) :
  Z.max (fst (size img)) (snd (size img))
    <= or_else (max_sample_dim o) (MAX_SAMPLE_DIM self) ->
  max_unique_error o = None ->
  from_image_max self img o = (Ok tt, set_colors self (exact_palette img)).
Proof.
  intros Hsize Hcap.
  destruct (opaque_rgb img) as [|c l] eqn:Eimg.
  { rewrite from_image_max_no_pixel by assumption.
    unfold exact_palette. now rewrite Eimg. }
  assert (Hne : opaque_rgb img <> []) by congruence.
  rewrite from_image_max_pixel by assumption.
  assert (Hs : shrink img (or_else (max_sample_dim o) (MAX_SAMPLE_DIM self)) = Ok img).
  { unfold shrink. destruct (size img) as [w h]. simpl in Hsize.
    destruct (Z.max w h >? _) eqn:E; [|reflexivity].
    apply Z.gtb_lt in E. lia. }
  rewrite Hs, Eimg, <- Eimg, Hcap. simpl too_many.
  now destruct (do_full_scan self o (opaque_rgb img) _).
Qed.

Lemma from_image_max_uncapped (self : Palette) (img : image) (o : max_options) :
  0 <= or_else (max_sample_dim o) (MAX_SAMPLE_DIM self) ->
  max_unique_error o = None ->
  fst (from_image_max self img o) = Ok tt.
Proof.
  intros Hdim Hcap.
  destruct (opaque_rgb img) as [|c l] eqn:Eimg.
  { now rewrite from_image_max_no_pixel. }
  assert (Hne : opaque_rgb img <> []) by congruence.
  rewrite from_image_max_pixel by assumption.
  destruct (shrink_defined img (or_else (max_sample_dim o) (MAX_SAMPLE_DIM self))
              Hdim) as [sample Hs].
  rewrite Hs, Hcap. simpl too_many.
  destruct (opaque_rgb sample); [reflexivity|].
  now destruct (do_full_scan self o _ _).
Qed.

(** With a sample cap that is not negative, [from_image_max] without
    [max_unique_error] always returns. *)
Theorem from_image_max_returns (self : Palette) (img : image) (o : max_options) :
  0 <= or_else (max_sample_dim o) (MAX_SAMPLE_DIM self) ->
  max_unique_error o = None ->
  fst (from_image_max self img o) = Ok tt.
Proof.
  apply from_image_max_uncapped.
Qed.

(** With [force_full_scan] and a cap [m], a call that returns leaves at
    most [m] entries (none when [m] is negative). *)
Theorem from_image_max_forced_cap
  (self : Palette) (img : image) (o : max_options) (m : Z) :
  force_full_scan o = true ->
  max_unique_error o = Some m ->
  fst (from_image_max self img o) = Ok tt ->
  Z.of_nat (List.length (colors (snd (from_image_max self img o)))) <= Z.max 0 m.
Proof.
  intros Hforce Hcap.
  destruct (opaque_rgb img) as [|c l] eqn:Eimg.
  { rewrite from_image_max_no_pixel by assumption. simpl. lia. }
  assert (Hne : opaque_rgb img <> []) by congruence.
  rewrite from_image_max_pixel by assumption.
  destruct (shrink img _) as [sample|]; [|discriminate].
  destruct (opaque_rgb sample) as [|c' l']; [simpl; lia|].
  unfold do_full_scan. rewrite Hforce, Hcap. unfold too_many.
  destruct (Z.of_nat (List.length (np_unique_counts (opaque_rgb img))) >? m) eqn:E;
    [discriminate|].
  intros _. simpl. rewrite exact_palette_length, <- np_unique_counts_length.
  rewrite Z.gtb_ltb in E. apply Z.ltb_ge in E. lia.
Qed.

(** The estimate of [estimate_unique_stats] with a cap that is not
    negative: the call returns; the third number is the number
    of opaque pixels; the first is between 0 and the second, and is at
    least 1 when the second is; and for an image whose longer edge does
    not exceed the cap, the second is the number of opaque pixels and the
    first the number of their distinct colours. *)
Theorem estimate_unique_stats_values
  (self : Palette) (img : image) (cap : option Z) :
  0 <= or_else cap (MAX_SAMPLE_DIM self) ->
  exists u s,
    fst (estimate_unique_stats self img cap)
    = Ok (u, s, Z.of_nat (List.length (opaque_rgb img)))
    /\ 0 <= u <= s
    /\ (0 < s -> 0 < u)
    /\ (Z.max (fst (size img)) (snd (size img))
          <= or_else cap (MAX_SAMPLE_DIM self) ->
        s = Z.of_nat (List.length (opaque_rgb img))
        /\ u = Z.of_nat (distinct_count (opaque_rgb img))).
Proof.
  intros Hdim. unfold estimate_unique_stats.
  destruct (opaque_rgb img) as [|c l] eqn:Eimg.
  { simpl. exists 0, 0.
    split; [reflexivity|]. split; [lia|]. split; [lia|]. now intros _. }
  rewrite <- Eimg.
  assert (Hne : opaque_rgb img <> []) by congruence.
  assert (Hz : (Z.of_nat (List.length (opaque_rgb img)) =? 0) = false).
  { rewrite Eimg. apply Z.eqb_neq. simpl. lia. }
  rewrite Hz.
  destruct (shrink_defined img (or_else cap (MAX_SAMPLE_DIM self)) Hdim)
    as [sample Hs].
  rewrite Hs.
  assert (Hsmall : Z.max (fst (size img)) (snd (size img))
                     <= or_else cap (MAX_SAMPLE_DIM self) -> sample = img).
  { intros Hsize. revert Hs. unfold shrink. destruct (size img) as [w h].
    simpl in Hsize. destruct (Z.max w h >? _) eqn:E.
    - apply Z.gtb_lt in E. lia.
    - intros E'. now inversion E'. }
  destruct (opaque_rgb sample) as [|c' l'] eqn:Esample.
  { simpl. exists 0, 0.
    split; [reflexivity|]. split; [lia|]. split; [lia|].
    intros Hsize. rewrite (Hsmall Hsize) in Esample. congruence. }
  rewrite <- Esample. simpl fst.
  exists (Z.of_nat (List.length (np_unique (opaque_rgb sample)))),
         (Z.of_nat (List.length (opaque_rgb sample))).
  rewrite np_unique_length.
  assert (Hle : (distinct_count (opaque_rgb sample)
                 <= List.length (opaque_rgb sample))%nat).
  { unfold distinct_count. apply NoDup_incl_length; [apply NoDup_nodup|].
    intros x Hx. now apply nodup_In in Hx. }
  assert (Hpos : (0 < distinct_count (opaque_rgb sample))%nat).
  { unfold distinct_count. rewrite Esample.
    destruct (nodup triple_eq_dec (c' :: l')) eqn:En; [|simpl; lia].
    exfalso. assert (Hin : In c' (nodup triple_eq_dec (c' :: l')))
      by (apply nodup_In; now left).
    now rewrite En in Hin. }
  split; [reflexivity|]. split; [lia|]. split; [lia|].
  intros Hsize. now rewrite (Hsmall Hsize).
Qed.

(** The colours that a container holds before a builder runs do not
    enter its result: the outcome is the same, and so are the colours
    left when the call returns. *)
Theorem builders_discard_colors
  (self : Palette) (old : list entry) (img : image) :
  (forall n max_dim,
      fst (from_image_quant (set_colors self old) img n max_dim)
      = fst (from_image_quant self img n max_dim)
      /\ (fst (from_image_quant self img n max_dim) = Ok tt ->
          snd (from_image_quant (set_colors self old) img n max_dim)
          = snd (from_image_quant self img n max_dim)))
  /\ (forall o,
         fst (from_image_max (set_colors self old) img o)
         = fst (from_image_max self img o)
         /\ (fst (from_image_max self img o) = Ok tt ->
             snd (from_image_max (set_colors self old) img o)
             = snd (from_image_max self img o))).
Proof.
  split.
  - intros n max_dim. unfold from_image_quant.
    destruct (n <=? 0); [now split|].
    destruct (shrink img _) as [sample|]; [|split; [reflexivity | discriminate]].
    destruct (opaque_rgb sample) as [|c l]; [now split|].
    destruct (convert_P_adaptive (c :: l) n) as [q|];
      [|split; [reflexivity | discriminate]].
    destruct (quant_mapping (getpalette q) (getcolors q));
      [now split | split; [reflexivity | discriminate]].
  - intros o. unfold from_image_max.
    destruct (Z.of_nat (List.length (opaque_rgb img)) =? 0); [now split|].
    simpl MAX_SAMPLE_DIM.
    destruct (shrink img _) as [sample|]; [|split; [reflexivity | discriminate]].
    destruct (opaque_rgb sample) as [|c l]; [now split|].
    change (do_full_scan (set_colors self old) o (c :: l)
              (Z.of_nat (List.length (opaque_rgb img))))
      with (do_full_scan self o (c :: l) (Z.of_nat (List.length (opaque_rgb img)))).
    destruct (do_full_scan self o (c :: l) _); [|now split].
    destruct (too_many _ _); [split; [reflexivity | discriminate] | now split].
Qed.
End MoreBuilders.

Lemma from_image_max_installs_witness :
  let l := colors (snd (from_image_max (F := rational_floats) (I := picking)
                          new_palette two_colors capped)) in
  Forall (fun e => enabled e = true) l
  /\ Forall (fun e => 1 <= count e) l
  /\ NoDup (map rgb l)
  /\ descending l.
Proof.
  apply (from_image_max_installs (F := rational_floats) (I := picking)
           new_palette two_colors capped).
  reflexivity.
Defined.

Lemma from_image_quant_installs_witness :
  let l := colors (snd (from_image_quant (F := rational_floats) (I := picking)
                          new_palette two_by_two 1 None)) in
  (List.length l <= 256)%nat
  /\ Forall (fun e => enabled e = true) l
  /\ Forall (fun e => 1 <= count e) l
  /\ descending l.
Proof.
  apply (from_image_quant_installs (F := rational_floats) (I := picking)
           new_palette two_by_two 1 None).
  reflexivity.
Defined.

Lemma from_image_max_small_image_witness :
  from_image_max (F := rational_floats) (I := picking) busy_palette two_by_two
    {| force_full_scan := false;
       max_sample_dim := Some 2;
       full_scan_pixel_limit := None;
       unique_threshold := None;
       unique_ratio_threshold := None;
       max_unique_error := None |}
  = (Ok tt, set_colors busy_palette (exact_palette two_by_two)).
Proof.
  apply (from_image_max_small_image (F := rational_floats) (I := picking)).
  - simpl. lia.
  - reflexivity.
Defined.

Lemma from_image_max_returns_witness :
  fst (from_image_max (F := rational_floats) (I := picking)
         busy_palette long_row default_options) = Ok tt.
Proof.
  apply (from_image_max_returns (F := rational_floats) (I := picking)).
  - simpl. lia.
  - reflexivity.
Defined.

(** A cap far below zero: the scale of the reduction is no float, and
    the container is what it was. *)
Example from_image_max_far_below :
  from_image_max (F := rational_floats) (I := picking)
    busy_palette two_by_two far_below
  = (Raise OverflowError, busy_palette)
  /\ fst (estimate_unique_stats (F := rational_floats) (I := picking)
            busy_palette two_by_two (Some (- 2 ^ 1100)))
     = Raise OverflowError.
Proof. split; vm_compute; reflexivity. Qed.

Lemma from_image_max_forced_cap_witness :
  Z.of_nat (List.length
              (colors (snd (from_image_max (F := rational_floats) (I := picking)
                              new_palette two_by_two
                              {| force_full_scan := true;
                                 max_sample_dim := None;
                                 full_scan_pixel_limit := Some 0;
                                 unique_threshold := Some 0;
                                 unique_ratio_threshold := None;
                                 max_unique_error := Some 2 |}))))
  <= Z.max 0 2.
Proof.
  apply (from_image_max_forced_cap (F := rational_floats) (I := picking));
    reflexivity.
Defined.

Lemma builders_discard_colors_witness :
  snd (from_image_quant (F := rational_floats) (I := picking)
         (set_colors new_palette (colors mixed_palette)) two_by_two 2 None)
  = snd (from_image_quant (F := rational_floats) (I := picking)
           new_palette two_by_two 2 None)
  /\ snd (from_image_max (F := rational_floats) (I := picking)
            (set_colors new_palette (colors mixed_palette)) two_by_two
            default_options)
     = snd (from_image_max (F := rational_floats) (I := picking)
              new_palette two_by_two default_options).
Proof.
  destruct (builders_discard_colors (F := rational_floats) (I := picking)
              new_palette (colors mixed_palette) two_by_two) as [Hq Hm].
  split.
  - apply (Hq 2 None). vm_compute. reflexivity.
  - apply (Hm default_options). vm_compute. reflexivity.
Defined.

Lemma estimate_unique_stats_values_witness :
  exists u s,
    fst (estimate_unique_stats (F := rational_floats) (I := picking)
           new_palette two_by_two None)
    = Ok (u, s, Z.of_nat (List.length (opaque_rgb two_by_two)))
    /\ 0 <= u <= s
    /\ (0 < s -> 0 < u)
    /\ (Z.max (fst (size two_by_two)) (snd (size two_by_two))
          <= or_else None (MAX_SAMPLE_DIM new_palette) ->
        s = Z.of_nat (List.length (opaque_rgb two_by_two))
        /\ u = Z.of_nat (distinct_count (opaque_rgb two_by_two))).
Proof.
  apply (estimate_unique_stats_values (F := rational_floats) (I := picking)
           new_palette two_by_two None).
  simpl. lia.
Defined.

(* ================================================================== *)
(** * [generate_palette] *)
(* ================================================================== *)


Section GeneratePalette.
Context `{F : Floats} `{I : Imaging}.

Lemma estimate_unique_stats_returns (self : Palette) (img : image) (cap : option Z) :
  0 <= or_else cap (MAX_SAMPLE_DIM self) ->
  exists t, estimate_unique_stats self img cap = (Ok t, self).
Proof.
  intros Hdim. unfold estimate_unique_stats.
  destruct (opaque_rgb img) as [|c l] eqn:Eimg; [simpl; eauto|].
  assert (Hne : opaque_rgb img <> []) by congruence.
  rewrite <- Eimg.
  destruct (Z.of_nat (List.length (opaque_rgb img)) =? 0); [eauto|].
  destruct (shrink_defined img (or_else cap (MAX_SAMPLE_DIM self)) Hdim)
    as [sample Hs].
  rewrite Hs. destruct (opaque_rgb sample); eauto.
Qed.

Lemma from_image_max_value_error (self : Palette) (img : image) (o : max_options) :
  0 <= or_else (max_sample_dim o) (MAX_SAMPLE_DIM self) ->
  from_image_max self img o = (Raise ValueError, self)
  \/ fst (from_image_max self img o) = Ok tt.
Proof.
  intros Hdim.
  destruct (opaque_rgb img) as [|c l] eqn:Eimg.
  { right. now rewrite from_image_max_no_pixel. }
  assert (Hne : opaque_rgb img <> []) by congruence.
  rewrite from_image_max_pixel by assumption.
  destruct (shrink_defined img (or_else (max_sample_dim o) (MAX_SAMPLE_DIM self))
              Hdim) as [sample Hs].
  rewrite Hs. destruct (opaque_rgb sample); [now right|].
  destruct (do_full_scan self o _ _); [|now right].
  destruct (too_many _ _); [now left | now right].
Qed.

(** In [max] mode, with a [MAX_SAMPLE_DIM] that is not negative, no
    exception leaves the part of [generate_palette] that builds the
    palette, whatever the limits and the user's answer: the estimator
    and the builder return, and the [ValueError] of the cap is caught. *)
Theorem generate_palette_max_returns
  (self : Palette) (img : image) (max_warn max_error : Z)
  (val : string) (answer : bool * bool) :
  0 <= MAX_SAMPLE_DIM self ->
  lower (strip val) = "max"%string ->
  fst (generate_palette (Some img) self max_warn max_error val answer) = Ok tt.
Proof.
  intros Hdim Hval. unfold generate_palette.
  rewrite Hval. simpl String.eqb.
  destruct (estimate_unique_stats_returns self img None Hdim) as [[[u s] t] Hest].
  rewrite Hest.
  destruct (est_total_unique u s t >? max_error); [reflexivity|].
  destruct (est_total_unique u s t >? max_warn).
  - destruct answer as [proceed force].
    destruct proceed; [|reflexivity]. simpl negb. cbv iota.
    match goal with
    | |- context [from_image_max self img ?o] =>
        destruct (from_image_max_value_error self img o Hdim) as [E | E]
    end.
    + now rewrite E.
    + destruct (from_image_max self img _) as [[[]|e] after]; simpl in *;
        [reflexivity | discriminate].
  - apply from_image_max_uncapped; [assumption | reflexivity].
Qed.

End GeneratePalette.

Lemma generate_palette_max_returns_witness :
  fst (generate_palette (F := rational_floats) (I := picking)
         (Some two_by_two) new_palette 1 2 " MAX "%string (true, true)) = Ok tt.
Proof.
  apply (generate_palette_max_returns (F := rational_floats) (I := picking)).
  - simpl. lia.
  - reflexivity.
Defined.


(** From [2^31] on the number is no C [int]; a literal of more than 4300
    digits is no number, and the container is left alone. *)
Example generate_palette_large_numbers :
  generate_palette (F := rational_floats) (I := picking)
    (Some two_by_two) new_palette 1 2 "2147483648"%string (true, true)
  = (Raise OverflowError, new_palette)
  /\ generate_palette (F := rational_floats) (I := picking)
       (Some two_by_two) new_palette 1 2 long_literal (true, true)
     = (Ok tt, new_palette).
Proof. split; vm_compute; reflexivity. Qed.

Example generate_palette_two_by_two :
  generate_palette (F := rational_floats) (I := picking)
    (Some two_by_two) new_palette 0 1 "max"%string (true, true)
  = (Ok tt, new_palette)
  /\ colors (snd (generate_palette (F := rational_floats) (I := picking)
                    (Some two_by_two) new_palette 0 2 "max"%string (true, true)))
     = exact_palette two_by_two.
Proof. split; vm_compute; reflexivity. Qed.

(* ================================================================== *)
(** * [_pick_markers]: the nearest colour *)
(* ================================================================== *)

Lemma wrap16_small (z : Z) : -32768 <= z <= 32767 -> wrap16 z = z.
Proof.
  intros H. unfold wrap16. rewrite Z.mod_small; lia.
Qed.

Lemma square16_close (p q : Z) :
  Z.abs (p - q) <= 181 -> square16 p q = (p - q) * (p - q).
Proof.
  intros H. unfold square16.
  rewrite (wrap16_small (p - q)) by lia.
  apply wrap16_small. nia.
Qed.

Lemma dist_close (p q : triple) : close p q -> dist p q = euclid p q.
Proof.
  destruct p as [[r1 g1] b1], q as [[r2 g2] b2]. simpl.
  intros (Hr & Hg & Hb). now rewrite !square16_close.
Qed.

Lemma argmin_from_least (l : list Z) (i best : nat) (least : Z) :
  (argmin_from i best least l = best /\ Forall (fun d => least <= d) l)
  \/ (exists n,
         argmin_from i best least l = (i + n)%nat
         /\ (n < List.length l)%nat
         /\ nth n l 0 < least
         /\ Forall (fun d => nth n l 0 <= d) l).
Proof.
  revert i best least. induction l as [|d l IH]; intros i best least; simpl.
  - left. split; [reflexivity | constructor].
  - destruct (d <? least) eqn:E.
    + apply Z.ltb_lt in E. right.
      destruct (IH (S i) i d) as [[Hj Hall] | (n & Hj & Hn & Hlt & Hall)].
      * exists O. rewrite Hj, Nat.add_0_r. simpl.
        repeat split; try lia. constructor; [lia | exact Hall].
      * exists (S n). rewrite Hj. simpl.
        repeat split; try lia. constructor; [lia | exact Hall].
    + apply Z.ltb_ge in E.
      destruct (IH (S i) best least) as [[Hj Hall] | (n & Hj & Hn & Hlt & Hall)].
      * left. split; [exact Hj|]. constructor; assumption.
      * right. exists (S n). rewrite Hj. simpl.
        repeat split; try lia. constructor; [lia | exact Hall].
Qed.

Lemma argmin_least (l : list Z) :
  l <> [] ->
  (argmin l < List.length l)%nat
  /\ Forall (fun d => nth (argmin l) l 0 <= d) l.
Proof.
  destruct l as [|d l]; [congruence|]. intros _. simpl.
  destruct (argmin_from_least l 1 0 d) as [[Hj Hall] | (n & Hj & Hn & Hlt & Hall)];
    rewrite Hj; simpl.
  - split; [lia|]. constructor; [lia | exact Hall].
  - split; [lia|]. constructor; [lia | exact Hall].
Qed.

(** When no channel of the pixel differs by more than 181 from that of
    any colour of the palette, the index that [_pick_markers] takes for
    the nearest colour is one of a colour at the least squared distance
    from the pixel.  Beyond 181 the square of a difference leaves the
    16 bits in which it is computed. *)
Theorem nearest_index_euclid (pal : list triple) (p : triple) :
  pal <> [] ->
  Forall (close p) pal ->
  (nearest_index pal p < List.length pal)%nat
  /\ forall q, In q pal -> euclid p (nth (nearest_index pal p) pal p) <= euclid p q.
Proof.
  intros Hpal Hclose. unfold nearest_index.
  assert (Hne : map (dist p) pal <> []) by (destruct pal; simpl; congruence).
  destruct (argmin_least _ Hne) as [Hlt Hall].
  rewrite length_map in Hlt. split; [exact Hlt|].
  intros q Hq. rewrite Forall_forall in Hall, Hclose.
  specialize (Hall (dist p q) (in_map _ _ _ Hq)).
  set (j := argmin (map (dist p) pal)) in *.
  assert (Hj : nth j (map (dist p) pal) 0 = dist p (nth j pal p)).
  { rewrite (nth_indep _ 0 (dist p p)) by (rewrite length_map; exact Hlt).
    apply map_nth. }
  rewrite Hj in Hall.
  rewrite <- (dist_close p q) by now apply Hclose.
  rewrite <- (dist_close p (nth j pal p)); [exact Hall|].
  apply Hclose. now apply nth_In.
Qed.

Lemma nearest_index_euclid_witness :
  (nearest_index three_colours reddish < List.length three_colours)%nat
  /\ forall q, In q three_colours ->
               euclid reddish (nth (nearest_index three_colours reddish)
                                   three_colours reddish)
               <= euclid reddish q.
Proof.
  apply (nearest_index_euclid three_colours reddish).
  - discriminate.
  - repeat constructor; simpl; lia.
Defined.

(** Red is in the palette, and a red pixel is given to black: the square
    of 255 does not fit 16 bits and comes out as -511. *)
Example nearest_index_wraps :
  dist (255, 0, 0) (0, 0, 0) = -511
  /\ nearest_index red_and_black (255, 0, 0) = 1%nat.
Proof. split; reflexivity. Qed.

(* ================================================================== *)
(** * [_pick_markers]: the matching *)
(* ================================================================== *)

Lemma first_match_near (pal : list triple) (items : list ((Z * Z) * triple)) (i : nat) :
  first_match pal items i = first_near (near_of pal items) i.
Proof.
  unfold first_match, first_near, near_of.
  induction items as [|it items IH]; simpl; [reflexivity|].
  destruct (nearest_index pal (snd it) =? i)%nat; [reflexivity | exact IH].
Qed.

Lemma first_near_app (l l' : list (nat * (Z * Z))) (i : nat) :
  first_near (l ++ l') i
  = match first_near l i with
    | Some v => Some v
    | None => first_near l' i
    end.
Proof.
  unfold first_near. induction l as [|n l IH]; simpl; [reflexivity|].
  destruct (fst n =? i)%nat; [reflexivity | exact IH].
Qed.

Lemma nth_set_nth {A : Type} (i j : nat) (v d : A) (l : list A) :
  (i < List.length l)%nat ->
  nth j (set_nth i v l) d = if (i =? j)%nat then v else nth j l d.
Proof.
  revert i j. induction l as [|x l IH]; intros [|i] [|j]; simpl; intros H;
    try reflexivity; try lia.
  apply IH. lia.
Qed.

Lemma set_nth_length {A : Type} (i : nat) (v : A) (l : list A) :
  List.length (set_nth i v l) = List.length l.
Proof.
  revert i. induction l as [|x l IH]; intros [|i]; simpl; auto.
Qed.

Lemma existsb_eqb_In (i : nat) (l : list nat) :
  existsb (Nat.eqb i) l = true <-> In i l.
Proof.
  rewrite existsb_exists. split.
  - intros [x [Hx E]]. apply Nat.eqb_eq in E. now subst.
  - intros H. exists i. split; [exact H | apply Nat.eqb_refl].
Qed.

Lemma scanned_one (k : nat) (done : list (nat * (Z * Z))) (st : scan_state)
  (idx : nat) (xy : Z * Z) :
  scanned k done st -> scanned k (done ++ [(idx, xy)]) (scan_one idx xy st).
Proof.
  intros (Hlen & Hmap & Hrem). unfold scan_one.
  destruct (existsb (Nat.eqb idx) (remaining st)) eqn:E.
  - apply existsb_eqb_In in E. apply Hrem in E as [Hidx Hnone].
    split; [|split].
    + simpl. now rewrite set_nth_length.
    + intros i Hi. simpl mapping.
      rewrite nth_set_nth by lia. rewrite first_near_app.
      unfold first_near at 2. simpl.
      destruct (idx =? i)%nat eqn:Ei.
      * apply Nat.eqb_eq in Ei. subst i. now rewrite Hnone.
      * rewrite Hmap by assumption. now destruct (first_near done i).
    + intros i. simpl remaining. rewrite first_near_app.
      unfold first_near at 2. simpl.
      split.
      * intros Hin. apply in_remove in Hin as [Hin Hneq].
        apply Hrem in Hin as [Hi Hn]. split; [exact Hi|].
        rewrite Hn. destruct (idx =? i)%nat eqn:Ei; [|reflexivity].
        apply Nat.eqb_eq in Ei. congruence.
      * intros [Hi Hn]. apply in_in_remove.
        -- intros ->. destruct (first_near done idx); [discriminate|].
           now rewrite Nat.eqb_refl in Hn.
        -- apply Hrem. split; [exact Hi|].
           now destruct (first_near done i).
  - assert (Hnot : ~ In idx (remaining st)).
    { intros Hin. apply existsb_eqb_In in Hin. congruence. }
    split; [exact Hlen | split].
    + intros i Hi. rewrite Hmap by assumption. rewrite first_near_app.
      destruct (first_near done i) eqn:En; [reflexivity|].
      unfold first_near. simpl.
      destruct (idx =? i)%nat eqn:Ei; [|reflexivity].
      apply Nat.eqb_eq in Ei. subst i. exfalso. apply Hnot. now apply Hrem.
    + intros i. rewrite Hrem, first_near_app. split.
      * intros [Hi Hn]. split; [exact Hi|]. rewrite Hn.
        unfold first_near. simpl.
        destruct (idx =? i)%nat eqn:Ei; [|reflexivity].
        apply Nat.eqb_eq in Ei. subst i. exfalso. apply Hnot. now apply Hrem.
      * intros [Hi Hn]. split; [exact Hi|].
        now destruct (first_near done i).
Qed.

(** When nothing remains, the pixels that are not looked at would not
    change anything. *)
Lemma scanned_all (k : nat) (done more : list (nat * (Z * Z))) (st : scan_state) :
  scanned k done st -> remaining st = [] -> scanned k (done ++ more) st.
Proof.
  intros (Hlen & Hmap & Hrem) Hnil.
  assert (Hfound : forall i, (i < k)%nat -> first_near done i <> None).
  { intros i Hi Hn. assert (Hin : In i (remaining st)) by now apply Hrem.
    now rewrite Hnil in Hin. }
  split; [exact Hlen | split].
  - intros i Hi. rewrite Hmap by assumption. rewrite first_near_app.
    specialize (Hfound i Hi). now destruct (first_near done i).
  - intros i. rewrite Hnil. split; [intros []|].
    intros [Hi Hn]. rewrite first_near_app in Hn.
    specialize (Hfound i Hi). now destruct (first_near done i).
Qed.

Lemma scan_chunk_scanned (k : nat) (near done : list (nat * (Z * Z)))
  (st : scan_state) :
  scanned k done st -> scanned k (done ++ near) (scan_chunk near st).
Proof.
  revert done st. induction near as [|[idx xy] rest IH]; intros done st Hst.
  - now rewrite app_nil_r.
  - pose proof (scanned_one k done st idx xy Hst) as H1.
    replace (done ++ (idx, xy) :: rest) with ((done ++ [(idx, xy)]) ++ rest)
      by now rewrite <- app_assoc.
    simpl. unfold scan_one in H1.
    destruct (existsb (Nat.eqb idx) (remaining st)).
    + destruct (remove Nat.eq_dec idx (remaining st)) eqn:Er.
      * apply scanned_all; [exact H1 | exact Er].
      * now apply IH.
    + now apply IH.
Qed.

Lemma scan_chunks_scanned (k : nat) (pal : list triple)
  (chunks : list (list ((Z * Z) * triple))) (done : list ((Z * Z) * triple))
  (st : scan_state) :
  scanned k (near_of pal done) st ->
  scanned k (near_of pal (done ++ List.concat chunks)) (scan_chunks pal chunks st).
Proof.
  revert done st. induction chunks as [|c chunks IH]; intros done st Hst; simpl.
  - now rewrite app_nil_r.
  - destruct (remaining st) eqn:Er.
    + unfold near_of. rewrite map_app. now apply scanned_all.
    + rewrite app_assoc. apply IH.
      unfold near_of. rewrite map_app. now apply scan_chunk_scanned.
Qed.

Lemma chunk_positive : (0 < chunk)%nat.
Proof. unfold chunk. lia. Qed.

Lemma concat_chunks_of {A : Type} (fuel : nat) (items : list A) :
  (List.length items <= fuel)%nat -> List.concat (chunks_of fuel items) = items.
Proof.
  revert items. induction fuel as [|fuel IH]; intros items Hlen.
  - destruct items; [reflexivity | simpl in Hlen; lia].
  - destruct items as [|x items]; [reflexivity|].
    change (chunks_of (S fuel) (x :: items))
      with (firstn chunk (x :: items) :: chunks_of fuel (skipn chunk (x :: items))).
    change (List.concat (?c :: ?cs)) with (c ++ List.concat cs).
    rewrite IH; [apply firstn_skipn|].
    rewrite length_skipn. pose proof chunk_positive as Hc.
    simpl List.length in *. lia.
Qed.

Lemma match_pixels_nth (pal : list triple) (items : list ((Z * Z) * triple))
  (i : nat) :
  (i < List.length pal)%nat ->
  nth i (match_pixels pal items) None = first_match pal items i.
Proof.
  intros Hi. unfold match_pixels. rewrite first_match_near.
  set (st0 := {| mapping := repeat None (List.length pal);
                 remaining := seq 0 (List.length pal) |}).
  assert (H0 : scanned (List.length pal) (near_of pal []) st0).
  { split; [apply repeat_length | split].
    - intros j Hj. simpl. now rewrite nth_repeat.
    - intros j. simpl. rewrite in_seq. unfold first_near. simpl. intuition lia. }
  pose proof (scan_chunks_scanned (List.length pal) pal
                (chunks_of (List.length items) items) [] st0 H0) as H.
  rewrite concat_chunks_of in H by lia. simpl app in H.
  destruct H as (_ & Hmap & _). now apply Hmap.
Qed.

(** When the loops of [_pick_markers] are over, a colour of the palette
    has the position of the first opaque pixel of the sample, row by row,
    whose nearest colour it is, and none when it is the nearest colour of
    no pixel: leaving the loops early and going by chunks lose nothing. *)
Theorem match_pixels_first (pal : list triple) (items : list ((Z * Z) * triple))
  (i : nat) :
  (i < List.length pal)%nat ->
  nth i (match_pixels pal items) None = first_match pal items i.
Proof. apply match_pixels_nth. Qed.

Lemma match_pixels_first_witness :
  nth 1 (match_pixels red_and_black three_pixels) None
  = first_match red_and_black three_pixels 1.
Proof.
  apply (match_pixels_first red_and_black three_pixels 1).
  unfold red_and_black. simpl List.length. lia.
Defined.

(** Both colours get a pixel, and each the pixel of the other: the bright
    red one goes to black, the dark one to red. *)
Example match_pixels_three_pixels :
  match_pixels red_and_black three_pixels = [Some (1, 0); Some (0, 0)].
Proof. vm_compute. reflexivity. Qed.

Section MarkerFacts.
Context `{F : Floats}.
Variable resize_nearest : Z * Z -> image -> image.
Variable int_over : Z -> flt -> flt.

Lemma place_colour (w h : Z) (s d : flt) (c : entry) (pos : option (Z * Z)) :
  fst (place int_over w h s d c pos) = rgb c.
Proof. destruct pos as [[x y]|]; reflexivity. Qed.

Lemma place_nowhere (w h : Z) (s d : flt) (c : entry) (pos : option (Z * Z)) :
  snd (place int_over w h s d c pos) = None <-> pos = None.
Proof. destruct pos as [[x y]|]; simpl; split; congruence. Qed.

Lemma placed_colours (g : nat -> entry -> marker) (l : list entry) (a : nat) :
  (forall i c, fst (g i c) = rgb c) ->
  map fst (map (fun ic => g (fst ic) (snd ic)) (combine (seq a (List.length l)) l))
  = map rgb l.
Proof.
  intros Hg. revert a. induction l as [|c l IH]; intros a; simpl; [reflexivity|].
  now rewrite Hg, IH.
Qed.

Lemma placed_nth (g : nat -> entry -> marker) (l : list entry) (a i : nat)
  (d : marker) (e : entry) :
  (i < List.length l)%nat ->
  nth i (map (fun ic => g (fst ic) (snd ic)) (combine (seq a (List.length l)) l)) d
  = g (a + i)%nat (nth i l e).
Proof.
  revert a i. induction l as [|c l IH]; intros a [|i]; simpl; intros Hi;
    try lia.
  - now rewrite Nat.add_0_r.
  - rewrite IH by lia. f_equal. lia.
Qed.

(** The markers that [_pick_markers] leaves for an image: one for each
    entry of the palette, in order and with the colour of the entry; the
    marker of an entry has no position exactly when that entry is the
    nearest colour of no opaque pixel of the sample. *)
Theorem pick_markers_positions
  (img : image) (colors : list entry) (display_scale : flt) (ms : list marker) :
  _pick_markers resize_nearest int_over (Some img) colors display_scale = Some ms ->
  map fst ms = map rgb colors
  /\ forall i d,
       (i < List.length colors)%nat ->
       (snd (nth i ms d) = None
        <-> first_match (map rgb colors)
              (opaque_items (snd (marker_sample resize_nearest img))) i = None).
Proof.
  unfold _pick_markers.
  destruct colors as [|c0 colors']; [intros E; inversion E; split;
    [reflexivity | intros i d Hi; simpl in Hi; lia]|].
  set (colors := c0 :: colors').
  destruct (size img) as [w h].
  destruct (marker_sample resize_nearest img) as [sample_scale sample].
  simpl snd.
  destruct (opaque_items sample) as [|it items] eqn:Eitems.
  - intros E. injection E as <-.
    change ((rgb c0, @None (Z * Z)) :: map (fun c => (rgb c, None)) colors')
      with (map (fun c : entry => (rgb c, @None (Z * Z))) colors).
    split; [now rewrite map_map|].
    intros i d Hi.
    assert (Hn : nth i (map (fun c : entry => (rgb c, @None (Z * Z))) colors) d
                 = (rgb (nth i colors c0), None)).
    { rewrite (nth_indep _ d ((fun c : entry => (rgb c, @None (Z * Z))) c0))
        by now rewrite length_map.
      apply (map_nth (fun c : entry => (rgb c, @None (Z * Z)))). }
    assert (Hc : snd (rgb (nth i colors c0), @None (Z * Z)) = None
                 <-> first_match (map rgb colors) [] i = None)
      by (unfold first_match; simpl; tauto).
    rewrite <- Hn in Hc. exact Hc.
  - destruct (forallb int16_colour (map rgb colors)); [|discriminate].
    intros E. injection E as <-.
    set (g := fun (i : nat) (c : entry) =>
                place int_over w h sample_scale display_scale c
                  (nth i (match_pixels (map rgb colors) (it :: items)) None)).
    split.
    + apply (placed_colours g colors 0). intros i c. apply place_colour.
    + intros i d Hi.
      pose proof (placed_nth g colors 0 i d c0 Hi) as Hn. simpl Nat.add in Hn.
      assert (Hc : snd (g i (nth i colors c0)) = None
                   <-> first_match (map rgb colors) (it :: items) i = None).
      { unfold g. rewrite place_nowhere.
        rewrite match_pixels_nth by now rewrite length_map.
        tauto. }
      rewrite <- Hn in Hc. exact Hc.
Qed.
End MarkerFacts.

(** The squares are taken in [int16]: the bright red pixel is marked for
    blue and the dark one for red, and black gets no marker. *)
Example pick_markers_red_on_black :
  _pick_markers (F := rational_floats) nearest rational_over
    (Some red_on_black) red_black_entries (2 # 1)
  = Some [((255, 0, 0), Some (4, 0)); ((0, 0, 0), None); ((0, 0, 255), Some (0, 0))].
Proof. vm_compute. reflexivity. Qed.

Lemma pick_markers_positions_witness :
  map fst [((255, 0, 0), Some (4, 0)); ((0, 0, 0), @None (Z * Z));
           ((0, 0, 255), Some (0, 0))]
  = map rgb red_black_entries
  /\ forall i d,
       (i < List.length red_black_entries)%nat ->
       (snd (nth i [((255, 0, 0), Some (4, 0)); ((0, 0, 0), None);
                    ((0, 0, 255), Some (0, 0))] d) = None
        <-> first_match (map rgb red_black_entries)
              (opaque_items (snd (marker_sample (F := rational_floats)
                                    nearest red_on_black))) i = None).
Proof.
  apply (pick_markers_positions (F := rational_floats) nearest rational_over
           red_on_black red_black_entries (2 # 1)).
  vm_compute. reflexivity.
Defined.
